(** * Auth0 CIBA approval service: a shallow embedding and its properties

    Source: [backend/src/services/async-auth/AsyncAuthService.ts]
    (class [Auth0CIBAService]).

    The service keeps a private [Map] of approval requests, talks to an
    external authority over HTTP and reads the wall clock.  The embedding
    threads an explicit [World] (clock, request map, log of network calls)
    through every operation; what the authority answers and how long calls
    and timers take comes from an [Environment], an oracle that answers from
    the current world.

    Conventions of the embedding:
    - JavaScript strings are sequences of UTF-16 code units;
    - an amount is a JavaScript [number] (finite rational, infinity or NaN);
      dates are integer milliseconds, intervals and lifetimes integers;
    - [Number.prototype.toLocaleString] is the one of the [en-US] locale;
    - the clock stands still during synchronous code and advances across
      an [await] (network call, timer) and between calls;
    - calls of the service run one after the other: nothing else touches the
      map while a call awaits. *)

From Stdlib Require Import ZArith QArith Qabs List Ascii String Decimal.
From stdpp Require Import base decidable option list gmap.

Open Scope Z_scope.

(** ** JavaScript strings *)

(** A string is its sequence of UTF-16 code units. *)
Abbreviation jsstring := (list N).

(** An ASCII literal as a JavaScript string. *)
Definition lit (s : string) : jsstring :=
  map N_of_ascii (list_ascii_of_string s).

(** [s || d] on strings: the empty string is falsy. *)
Definition str_or (s d : jsstring) : jsstring :=
  match s with
  | [] => d
  | _ => s
  end.

(** [o || d] where [o] may be [undefined]. *)
Definition opt_str_or (o : option jsstring) (d : jsstring) : jsstring :=
  match o with
  | Some s => str_or s d
  | None => d
  end.

(** [String.prototype.startsWith]. *)
Fixpoint startsWith (s prefix : jsstring) {struct prefix} : bool :=
  match prefix, s with
  | [], _ => true
  | p :: prefix', c :: s' => (p =? c)%N && startsWith s' prefix'
  | _ :: _, [] => false
  end.

(** Strict equality of a possibly undefined value with a string literal. *)
Definition is_str (o : option jsstring) (s : string) : bool :=
  bool_decide (o = Some (lit s)).

(** ** JavaScript numbers *)

(** A number is a finite value (every finite double is a rational), one of
    the two infinities, or NaN. *)
Inductive number : Type :=
  | Finite (q : Q)
  | PosInfinity
  | NegInfinity
  | NaN.

Definition of_Z (z : Z) : number := Finite (inject_Z z).

(** Truthiness of a number: [0] and [NaN] are falsy. *)
Definition num_truthy (n : number) : bool :=
  match n with
  | Finite q => negb (Qeq_bool q 0)
  | PosInfinity | NegInfinity => true
  | NaN => false
  end.

(** [o || d] where [o] is an optional number. *)
Definition opt_num_or (o : option number) (d : number) : number :=
  match o with
  | Some n => if num_truthy n then n else d
  | None => d
  end.

(** The [>] operator on numbers; any comparison with NaN is false. *)
Definition num_gt (a b : number) : bool :=
  match a, b with
  | NaN, _ | _, NaN => false
  | PosInfinity, PosInfinity => false
  | PosInfinity, _ => true
  | _, PosInfinity => false
  | NegInfinity, _ => false
  | Finite _, NegInfinity => true
  | Finite x, Finite y => negb (Qle_bool x y)
  end.

(** *** Decimal rendering *)

Definition digit (d : N) : N := (48 + d)%N.

Fixpoint uint_digits (u : Decimal.uint) : jsstring :=
  match u with
  | Nil => []
  | D0 u => digit 0 :: uint_digits u
  | D1 u => digit 1 :: uint_digits u
  | D2 u => digit 2 :: uint_digits u
  | D3 u => digit 3 :: uint_digits u
  | D4 u => digit 4 :: uint_digits u
  | D5 u => digit 5 :: uint_digits u
  | D6 u => digit 6 :: uint_digits u
  | D7 u => digit 7 :: uint_digits u
  | D8 u => digit 8 :: uint_digits u
  | D9 u => digit 9 :: uint_digits u
  end.

(** Decimal digits of a natural number, most significant first; ["0"] for
    zero. *)
Definition N_digits (n : N) : jsstring := uint_digits (N.to_uint n).

(** [String(z)] for an integer, as in a template literal. *)
Definition Z_to_string (z : Z) : jsstring :=
  (if z <? 0 then lit "-" else []) ++ N_digits (Z.abs_N z).

(** Insert [","] between groups of three digits; the argument is the digit
    string reversed, [k] counts the digits already emitted in the group. *)
Fixpoint group_rev (k : nat) (rev_digits : jsstring) : jsstring :=
  match rev_digits with
  | [] => []
  | d :: rest =>
      match k with
      | 3%nat => 44%N :: d :: group_rev 1 rest
      | _ => d :: group_rev (S k) rest
      end
  end.

Definition group_thousands (digits : jsstring) : jsstring :=
  rev (group_rev 0 (rev digits)).

(** Drop the trailing zeros of a fraction. *)
Fixpoint strip_trailing_zeros (rev_digits : jsstring) : jsstring :=
  match rev_digits with
  | d :: rest => if (d =? digit 0)%N then strip_trailing_zeros rest else rev_digits
  | [] => []
  end.

(** [Number.prototype.toLocaleString()] with no arguments, for the [en-US]
    locale (ECMA-402, decimal style): grouping by thousands with [","], at
    most three fraction digits rounded half away from zero, ["-"] for
    negative values, U+221E for the infinities and ["NaN"]. *)
Definition toLocaleString (n : number) : jsstring :=
  match n with
  | NaN => lit "NaN"
  | PosInfinity => [8734%N]
  | NegInfinity => lit "-" ++ [8734%N]
  | Finite q =>
      let num := Z.abs (Qnum q) in
      let den := Z.pos (Qden q) in
      let scaled := Z.to_N ((2000 * num + den) / (2 * den)) in
      let ip := (scaled / 1000)%N in
      let fp := (scaled mod 1000)%N in
      let frac :=
        rev (strip_trailing_zeros
               [digit (fp mod 10); digit ((fp / 10) mod 10); digit (fp / 100)]) in
      (if Qnum q <? 0 then lit "-" else [])
        ++ group_thousands (N_digits ip)
        ++ (match frac with [] => [] | _ => lit "." ++ frac end)
  end.

(** ** The request record *)

Inductive DetailsType : Type :=
  | transfer
  | payroll_access
  | sensitive_operation.

(** [CIBARequest['details']]. *)
Record Details : Type := mkDetails {
  type : DetailsType;
  description : jsstring;
  amount : option number;
  fromAccount : option jsstring;
  toAccount : option jsstring;
  reason : option jsstring
}.

(** The status tags; [waitForApproval] and [pollCIBAResult] return tags of
    the same vocabulary. *)
Inductive Status : Type :=
  | pending
  | approved
  | denied
  | expired
  | timeout.

#[global] Instance Status_eq_dec : EqDecision Status.
Proof. solve_decision. Defined.

(** [CIBARequest]; dates are milliseconds since the epoch. *)
Record CIBARequest : Type := mkRequest {
  authReqId : jsstring;
  userId : jsstring;
  userEmail : option jsstring;
  operation : jsstring;
  details : Details;
  status : Status;
  requestedAt : Z;
  respondedAt : option Z;
  expiresAt : Z;
  bindingMessage : option jsstring;
  interval : option Z
}.

Definition set_status (s : Status) (r : CIBARequest) : CIBARequest :=
  mkRequest (authReqId r) (userId r) (userEmail r) (operation r) (details r)
    s (requestedAt r) (respondedAt r) (expiresAt r) (bindingMessage r)
    (interval r).

Definition set_respondedAt (t : Z) (r : CIBARequest) : CIBARequest :=
  mkRequest (authReqId r) (userId r) (userEmail r) (operation r) (details r)
    (status r) (requestedAt r) (Some t) (expiresAt r) (bindingMessage r)
    (interval r).

Definition set_interval (i : Z) (r : CIBARequest) : CIBARequest :=
  mkRequest (authReqId r) (userId r) (userEmail r) (operation r) (details r)
    (status r) (requestedAt r) (respondedAt r) (expiresAt r) (bindingMessage r)
    (Some i).

(** ** Risk policy *)

(** [requiresApproval(operationType, details)]; only [details.amount] is
    read. *)
Definition requiresApproval (operationType : jsstring) (amount : option number) : bool :=
  if bool_decide (operationType = lit "transfer") then
    num_gt (opt_num_or amount (of_Z 0)) (of_Z 50000)
  else if bool_decide (operationType = lit "sensitive_operation") then
    true
  else
    false.

(** ** Binding message *)

(** The regular-expression class [\w]. *)
Definition is_word (c : N) : bool :=
  ((48 <=? c) && (c <=? 57) || (65 <=? c) && (c <=? 90)
   || (97 <=? c) && (c <=? 122) || (c =? 95))%N.

(** The regular-expression class [\s]. *)
Definition is_space (c : N) : bool :=
  ((9 <=? c) && (c <=? 13) || (c =? 32) || (c =? 160) || (c =? 5760)
   || (8192 <=? c) && (c <=? 8202) || (c =? 8232) || (c =? 8233)
   || (c =? 8239) || (c =? 8287) || (c =? 12288) || (c =? 65279))%N.

(** The class [[\w\s+\-_.,:#]] whose complement [sanitize] removes. *)
Definition kept (c : N) : bool :=
  is_word c || is_space c || bool_decide (c ∈ lit "+-_.,:#").

(** [text.replace(/[^\w\s+\-_.,:#]/g, '')]. *)
Definition sanitize (text : jsstring) : jsstring := filter (fun c => kept c = true) text.

(** [createBindingMessage(operation, details)]. *)
Definition createBindingMessage (operation : jsstring) (details : Details) : jsstring :=
  match type details with
  | transfer =>
      let amount := opt_str_or (toLocaleString <$> amount details) (lit "0") in
      let toAccount := sanitize (opt_str_or (toAccount details) (lit "unknown")) in
      lit "Approve transfer of " ++ amount ++ lit " USD to " ++ toAccount
  | _ =>
      let sanitized := sanitize (description details) in
      lit "Approve " ++ sanitize operation ++ lit ": " ++ sanitized
  end.

(** ** The world: clock, request map, network *)

(** A request sent to the authority. *)
Inductive NetCall : Type :=
  | bc_authorize (sub : jsstring) (binding_message : jsstring)
  | oauth_token (auth_req_id : jsstring).

(** The state every operation reads and writes: [Date.now()], the private
    [pendingRequests] map and the requests sent so far (newest first). *)
Record World : Type := mkWorld {
  clock : Z;
  pendingRequests : gmap jsstring CIBARequest;
  network : list NetCall
}.

(** The outcome of [axios.post]: the promise resolves with [response.data],
    or rejects; for a rejection only [error.response?.data?.error] is read. *)
Inductive AxiosResult (A : Type) : Type :=
  | Resolved (data : A)
  | Rejected (errorCode : option jsstring).

Arguments Resolved {A} data.
Arguments Rejected {A} errorCode.

(** [response.data] of [/bc-authorize]. *)
Record BcData : Type := mkBcData {
  data_auth_req_id : jsstring;
  data_expires_in : option Z;
  data_interval : option Z
}.

(** [response.data] of [/oauth/token]. *)
Record TokenData : Type := mkTokenData {
  data_access_token : option jsstring
}.

(** What lies outside the service: what the authority answers to each
    request, how long the round trip takes, and by how much a timer fires
    late, as functions of the world at the time. *)
Record Environment : Type := mkEnvironment {
  bcAuthorize : World -> jsstring -> jsstring -> AxiosResult BcData;
  oauthToken : World -> jsstring -> AxiosResult TokenData;
  latency : World -> N;
  lateness : World -> N
}.

(** [this.pendingRequests.set(id, request)]. *)
Definition store_set (id : jsstring) (r : CIBARequest) (w : World) : World :=
  mkWorld (clock w) (<[id := r]> (pendingRequests w)) (network w).

(** Time passes during an [await] on the network. *)
Definition sent (env : Environment) (call : NetCall) (w : World) : World :=
  mkWorld (clock w + Z.of_N (latency env w)) (pendingRequests w)
    (call :: network w).

(** The delay a timer really uses: Node sets a delay below 1 or above
    2^31-1 to 1. *)
Definition timer_delay (ms : Z) : Z :=
  if (ms <? 1) || (2147483647 <? ms) then 1 else ms.

(** [await new Promise((resolve) => setTimeout(resolve, ms))]: the timer
    fires after its delay, or later. *)
Definition setTimeout (env : Environment) (ms : Z) (w : World) : World :=
  mkWorld (clock w + timer_delay ms + Z.of_N (lateness env w))
    (pendingRequests w) (network w).

(** [o || d] on an optional integer. *)
Definition opt_Z_or (o : option Z) (d : Z) : Z :=
  match o with
  | Some z => if z =? 0 then d else z
  | None => d
  end.

(** Truthiness of an optional string. *)
Definition str_truthy (o : option jsstring) : bool :=
  match o with
  | Some (_ :: _) => true
  | _ => false
  end.

Section Service.

Variable env : Environment.

(** [initiateCIBARequest(userId, userEmail, operation, details)]. *)
Definition initiateCIBARequest (userId userEmail operation : jsstring)
    (details : Details) (w : World) : CIBARequest * World :=
  let bindingMessage := createBindingMessage operation details in
  let response := bcAuthorize env w userId bindingMessage in
  let w1 := sent env (bc_authorize userId bindingMessage) w in
  match response with
  | Resolved data =>
      let authReqId := data_auth_req_id data in
      let expiresIn := opt_Z_or (data_expires_in data) 300 in
      let interval := opt_Z_or (data_interval data) 5 in
      let request :=
        mkRequest authReqId userId (Some userEmail) operation details
          pending (clock w1) None (clock w1 + expiresIn * 1000)
          (Some bindingMessage) (Some interval) in
      (request, store_set authReqId request w1)
  | Rejected _ =>
      let authReqId := lit "SIMULATED-" ++ Z_to_string (clock w1) in
      let request :=
        mkRequest authReqId userId (Some userEmail) operation details
          pending (clock w1) None (clock w1 + 300000)
          (Some bindingMessage) None in
      (request, store_set authReqId request w1)
  end.

(** [pollCIBAResult(authReqId)]. *)
Definition pollCIBAResult (authReqId : jsstring) (w : World) : Status * World :=
  match pendingRequests w !! authReqId with
  | None => (expired, w)
  | Some request =>
      if expiresAt request <? clock w then
        (expired, store_set authReqId (set_status expired request) w)
      else if startsWith authReqId (lit "SIMULATED-") then
        (if bool_decide (status request = pending) then pending
         else status request, w)
      else
        let response := oauthToken env w authReqId in
        let w1 := sent env (oauth_token authReqId) w in
        match response with
        | Resolved data =>
            if str_truthy (data_access_token data) then
              (approved,
               store_set authReqId
                 (set_respondedAt (clock w1) (set_status approved request)) w1)
            else (pending, w1)
        | Rejected errorCode =>
            if is_str errorCode "authorization_pending" then (pending, w1)
            else if is_str errorCode "slow_down" then
              let currentInterval := opt_Z_or (interval request) 5 in
              (pending,
               store_set authReqId
                 (set_interval (currentInterval + 5) request) w1)
            else if is_str errorCode "access_denied" then
              (denied,
               store_set authReqId
                 (set_respondedAt (clock w1) (set_status denied request)) w1)
            else if is_str errorCode "expired_token" then
              (expired, store_set authReqId (set_status expired request) w1)
            else (pending, w1)
        end
  end.

(** The interval check after a poll in [waitForApproval]:
    [updatedRequest?.interval && updatedRequest.interval * 1000 > pollIntervalMs]. *)
Definition adopt_interval (updatedRequest : option CIBARequest)
    (pollIntervalMs : Z) : Z :=
  match updatedRequest ≫= interval with
  | Some i =>
      if negb (i =? 0) && (pollIntervalMs <? i * 1000) then i * 1000
      else pollIntervalMs
  | None => pollIntervalMs
  end.

(** The [while] loop of [waitForApproval].  [fuel] bounds the number of
    iterations; besides the tag and the final world the loop reports the
    results of the polls it made, in order. *)
Fixpoint waitLoop (fuel : nat) (authReqId : jsstring)
    (startTime maxWaitMs pollIntervalMs : Z) (w : World)
    : option (Status * list Status * World) :=
  if clock w - startTime <? maxWaitMs then
    match fuel with
    | O => None
    | S fuel' =>
        let (result, w1) := pollCIBAResult authReqId w in
        if bool_decide (result = approved) then Some (approved, [result], w1)
        else if bool_decide (result = denied) then Some (denied, [result], w1)
        else if bool_decide (result = expired) then Some (expired, [result], w1)
        else
          let pollIntervalMs' :=
            adopt_interval (pendingRequests w1 !! authReqId) pollIntervalMs in
          match waitLoop fuel' authReqId startTime maxWaitMs pollIntervalMs'
                  (setTimeout env pollIntervalMs' w1) with
          | Some (tag, polls, w') => Some (tag, result :: polls, w')
          | None => None
          end
    end
  else Some (timeout, [], w).

(** [waitForApproval(authReqId, maxWaitMs)]. *)
Definition waitForApproval (fuel : nat) (authReqId : jsstring)
    (maxWaitMs : Z) (w : World) : option (Status * list Status * World) :=
  let startTime := clock w in
  let request := pendingRequests w !! authReqId in
  let pollIntervalMs := opt_Z_or (request ≫= interval) 5 * 1000 in
  waitLoop fuel authReqId startTime maxWaitMs pollIntervalMs w.

End Service.

(** The default of the [maxWaitMs] parameter. *)
Definition defaultMaxWaitMs : Z := 120000.

(** The loop of [waitForApproval] taken round by round.  A round that does
    not end the wait polls, adopts the stored interval when it is larger
    and sleeps; [after_rounds n] is the cadence and the world in which the
    loop tests its budget after [n] such rounds. *)
Fixpoint after_rounds (env : Environment) (n : nat) (authReqId : jsstring)
    (pollIntervalMs : Z) (w : World) : Z * World :=
  match n with
  | O => (pollIntervalMs, w)
  | S n' =>
      let w1 := (pollCIBAResult env authReqId w).2 in
      let pollIntervalMs' :=
        adopt_interval (pendingRequests w1 !! authReqId) pollIntervalMs in
      after_rounds env n' authReqId pollIntervalMs'
        (setTimeout env pollIntervalMs' w1)
  end.

(** The cadence of a wait started in [w], after [n] rounds. *)
Definition round_interval (env : Environment) (authReqId : jsstring)
    (w : World) (n : nat) : Z :=
  (after_rounds env n authReqId
     (opt_Z_or (pendingRequests w !! authReqId ≫= interval) 5 * 1000) w).1.

(** The world in which a wait started in [w] makes its poll number [n]
    (counted from 0), if it gets that far. *)
Definition round_world (env : Environment) (authReqId : jsstring)
    (w : World) (n : nat) : World :=
  (after_rounds env n authReqId
     (opt_Z_or (pendingRequests w !! authReqId ≫= interval) 5 * 1000) w).2.

(** The result of that poll. *)
Definition round_poll (env : Environment) (authReqId : jsstring)
    (w : World) (n : nat) : Status :=
  (pollCIBAResult env authReqId (round_world env authReqId w n)).1.

(** The shared body of [approveRequest] and [denyRequest]. *)
Definition resolveRequest (s : Status) (authReqId : jsstring) (w : World) : bool * World :=
  match pendingRequests w !! authReqId with
  | None => (false, w)
  | Some request =>
      if bool_decide (status request ≠ pending) then (false, w)
      else
        (true,
         store_set authReqId
           (set_respondedAt (clock w) (set_status s request)) w)
  end.

(** [approveRequest(authReqId)]. *)
Definition approveRequest : jsstring -> World -> bool * World :=
  resolveRequest approved.

(** [denyRequest(authReqId)]. *)
Definition denyRequest : jsstring -> World -> bool * World :=
  resolveRequest denied.

(** [getRequest(authReqId)]. *)
Definition getRequest (authReqId : jsstring) (w : World) : option CIBARequest :=
  pendingRequests w !! authReqId.

(** The lazy expiry of [getPendingRequestsForUser] on one record. *)
Definition expire_if_due (uid : jsstring) (now : Z) (r : CIBARequest) : CIBARequest :=
  if bool_decide (userId r = uid) && bool_decide (status r = pending)
     && (expiresAt r <? now)
  then set_status expired r else r.

(** [getPendingRequestsForUser(userId)].  Every record sits under its own
    [authReqId], so writing it back is an update in place.  The list comes
    in the map's enumeration order, not in insertion order. *)
Definition getPendingRequestsForUser (uid : jsstring) (w : World)
    : list CIBARequest * World :=
  (filter
     (fun r => userId r = uid /\ status r = pending /\ ¬ (expiresAt r < clock w))
     (snd <$> map_to_list (pendingRequests w)),
   mkWorld (clock w) (expire_if_due uid (clock w) <$> pendingRequests w)
     (network w)).

(** ** Vocabulary of the properties *)

(** The characters the approval channel accepts: letters, digits,
    whitespace and [+-_.,:#]. *)
Definition is_letter (c : N) : bool :=
  ((65 <=? c) && (c <=? 90) || (97 <=? c) && (c <=? 122))%N.

Definition is_digit (c : N) : bool := ((48 <=? c) && (c <=? 57))%N.

Definition allowed (c : N) : bool :=
  is_letter c || is_digit c || is_space c || bool_decide (c ∈ lit "+-_.,:#").

Definition all_allowed (s : jsstring) : Prop := Forall (fun c => allowed c = true) s.

(** Time passing between two calls of the service. *)
Definition elapse (ms : N) (w : World) : World :=
  mkWorld (clock w + Z.of_N ms) (pendingRequests w) (network w).

(** A poll result that keeps [waitForApproval] looping. *)
Definition nonterminal (s : Status) : Prop :=
  s <> approved /\ s <> denied /\ s <> expired.

(** The intervals of all stored requests. *)
Definition intervals (w : World) : gmap jsstring (option Z) :=
  interval <$> pendingRequests w.

(** A call of the service, or time passing. *)
Inductive Op : Type :=
  | Initiate (userId userEmail operation : jsstring) (details : Details)
  | Poll (authReqId : jsstring)
  | Wait (fuel : nat) (authReqId : jsstring) (maxWaitMs : Z)
  | Approve (authReqId : jsstring)
  | Deny (authReqId : jsstring)
  | ListPending (userId : jsstring)
  | Elapse (ms : N).

(** The world after a call; [None] when a wait runs out of fuel. *)
Definition run (env : Environment) (op : Op) (w : World) : option World :=
  match op with
  | Initiate u e o d => Some (initiateCIBARequest env u e o d w).2
  | Poll id => Some (pollCIBAResult env id w).2
  | Wait fuel id maxWaitMs => snd <$> waitForApproval env fuel id maxWaitMs w
  | Approve id => Some (approveRequest id w).2
  | Deny id => Some (denyRequest id w).2
  | ListPending uid => Some (getPendingRequestsForUser uid w).2
  | Elapse ms => Some (elapse ms w)
  end.

(** The worlds the service can be in: it starts with an empty map. *)
Inductive reachable (env : Environment) : World -> Prop :=
  | reachable_start (t : Z) : reachable env (mkWorld t ∅ [])
  | reachable_step (w : World) (op : Op) (w' : World) :
      reachable env w -> run env op w = Some w' -> reachable env w'.

(** The relation between status and response time that the code keeps. *)
Definition timestamp_inv (r : CIBARequest) : Prop :=
  (status r = pending -> respondedAt r = None)
  /\ (status r = approved \/ status r = denied -> is_Some (respondedAt r)).

Definition store_inv (w : World) : Prop :=
  map_Forall (fun _ r => timestamp_inv r) (pendingRequests w).

(** The invariant as the specification words it. *)
Definition respondedAt_iff_resolved (env : Environment) : Prop :=
  forall (w : World) (id : jsstring) (r : CIBARequest),
    reachable env w ->
    pendingRequests w !! id = Some r ->
    (is_Some (respondedAt r) <-> status r <> pending).

(** The effect of [slow_down] as the specification words it: the stored
    interval goes up by 5. *)
Definition slow_down_adds_five (env : Environment) : Prop :=
  forall (w : World) (id : jsstring) (r : CIBARequest) (i : Z),
    reachable env w ->
    pendingRequests w !! id = Some r ->
    interval r = Some i ->
    clock w <= expiresAt r ->
    startsWith id (lit "SIMULATED-") = false ->
    oauthToken env w id = Rejected (Some (lit "slow_down")) ->
    (interval <$> getRequest id (pollCIBAResult env id w).2)
    = Some (Some (i + 5)).

(** An authority that cannot be reached. *)
Definition offline : Environment :=
  mkEnvironment (fun _ _ _ => Rejected None) (fun _ _ => Rejected None)
    (fun _ => 0%N) (fun _ => 0%N).

(** An authority that accepts every request as ["req-1"] and answers every
    poll with [slow_down]. *)
Definition congested : Environment :=
  mkEnvironment
    (fun _ _ _ => Resolved (mkBcData (lit "req-1") (Some 300) (Some 5)))
    (fun _ _ => Rejected (Some (lit "slow_down")))
    (fun _ => 120%N) (fun _ => 3%N).

(** An authority that advertises an interval of -5 seconds, which nothing
    in the service rejects, and answers every poll with [slow_down]. *)
Definition backwards : Environment :=
  mkEnvironment
    (fun _ _ _ => Resolved (mkBcData (lit "req-1") None (Some (-5))))
    (fun _ _ => Rejected (Some (lit "slow_down")))
    (fun _ => 0%N) (fun _ => 0%N).

Definition demo_details : Details :=
  mkDetails transfer (lit "Transfer $75,000 from ACC001 to ACC999")
    (Some (of_Z 75000)) (Some (lit "ACC001")) (Some (lit "ACC999")) None.

Definition demo_start : World := mkWorld 1700000000000 ∅ [].

(** The world after one initiation against [env]. *)
Definition demo_initiated (env : Environment) : CIBARequest * World :=
  initiateCIBARequest env (lit "auth0|u1") (lit "u1@demo.local")
    (lit "Transfer $75,000") demo_details demo_start.

(** An authority that accepts every request as ["req-1"] and grants a token
    at every poll. *)
Definition granting : Environment :=
  mkEnvironment
    (fun _ _ _ => Resolved (mkBcData (lit "req-1") None None))
    (fun _ _ => Resolved (mkTokenData (Some (lit "eyJhbGciOi"))))
    (fun _ => 80%N) (fun _ => 0%N).

(** The number of polls sent so far. *)
Definition is_poll (call : NetCall) : bool :=
  match call with
  | oauth_token _ => true
  | bc_authorize _ _ => false
  end.

Definition polls_sent (w : World) : nat :=
  length (List.filter is_poll (network w)).

(** An authority that answers the first two polls with [slow_down], the
    third with [authorization_pending] and then grants a token. *)
Definition scripted : Environment :=
  mkEnvironment
    (fun _ _ _ => Resolved (mkBcData (lit "req-1") (Some 300) (Some 5)))
    (fun w _ =>
       match polls_sent w with
       | 0%nat | 1%nat => Rejected (Some (lit "slow_down"))
       | 2%nat => Rejected (Some (lit "authorization_pending"))
       | _ => Resolved (mkTokenData (Some (lit "eyJhbGciOi")))
       end)
    (fun _ => 100%N) (fun _ => 2%N).

(** ** Further vocabulary *)

(** The fields of a request that say what is asked of whom and until when;
    no call but [initiateCIBARequest] writes them. *)
Definition same_request (r r' : CIBARequest) : Prop :=
  authReqId r' = authReqId r
  /\ userId r' = userId r
  /\ userEmail r' = userEmail r
  /\ operation r' = operation r
  /\ details r' = details r
  /\ requestedAt r' = requestedAt r
  /\ expiresAt r' = expiresAt r
  /\ bindingMessage r' = bindingMessage r.

(** A status that ends [waitForApproval]. *)
Definition terminal (s : Status) : Prop :=
  s = approved \/ s = denied \/ s = expired.

(** The calls that create a request. *)
Definition is_initiate (op : Op) : bool :=
  match op with
  | Initiate _ _ _ _ => true
  | _ => false
  end.

(** A reply to a poll that asks for nothing but another poll: no token in
    the response, or an error other than [slow_down], [access_denied] and
    [expired_token]. *)
Definition inconclusive (reply : AxiosResult TokenData) : bool :=
  match reply with
  | Resolved data => negb (str_truthy (data_access_token data))
  | Rejected errorCode =>
      negb (is_str errorCode "slow_down")
      && negb (is_str errorCode "access_denied")
      && negb (is_str errorCode "expired_token")
  end.

(** An authority that accepts every request as ["req-1"] and fails every
    poll with a gateway error. *)
Definition flaky : Environment :=
  mkEnvironment
    (fun _ _ _ => Resolved (mkBcData (lit "req-1") (Some 0) None))
    (fun _ _ => Rejected (Some (lit "bad_gateway")))
    (fun _ => 40%N) (fun _ => 0%N).

(** How a stored request may differ after a call that does not create it:
    the same request, not back to [pending], and not [timeout] (a tag that
    [waitForApproval] returns and nothing stores). *)
Definition carries_on (r r' : CIBARequest) : Prop :=
  same_request r r'
  /\ (status r <> pending -> status r' <> pending)
  /\ (status r <> timeout -> status r' <> timeout).

(** [carries_on] on the two lookups of a key: present before and after, or
    absent before and after. *)
Definition entry_carries_on (o o' : option CIBARequest) : Prop :=
  match o, o' with
  | Some r, Some r' => carries_on r r'
  | None, None => True
  | _, _ => False
  end.

(** Every record sits under its own id and none is [timeout]. *)
Definition store_keyed (w : World) : Prop :=
  map_Forall (fun id r => authReqId r = id /\ status r <> timeout)
    (pendingRequests w).

(** ** Arithmetic on numbers *)

(** The [<] operator. *)
Definition num_lt (a b : number) : bool := num_gt b a.

(** The [<=] operator; any comparison with NaN is false. *)
Definition num_le (a b : number) : bool :=
  match a, b with
  | NaN, _ | _, NaN => false
  | NegInfinity, _ => true
  | _, PosInfinity => true
  | PosInfinity, _ => false
  | _, NegInfinity => false
  | Finite x, Finite y => Qle_bool x y
  end.

(** The [-] operator; subtraction of finite numbers is exact, which is
    what doubles give when the difference is a double, as for whole
    numbers up to 2^53; the rounding of other differences is left out. *)
Definition num_sub (a b : number) : number :=
  match a, b with
  | NaN, _ | _, NaN => NaN
  | PosInfinity, PosInfinity => NaN
  | NegInfinity, NegInfinity => NaN
  | PosInfinity, _ => PosInfinity
  | NegInfinity, _ => NegInfinity
  | Finite _, PosInfinity => NegInfinity
  | Finite _, NegInfinity => PosInfinity
  | Finite x, Finite y => Finite (Qred (x - y))
  end.

(** [ToIntegerOrInfinity] followed by the clamping of
    [Array.prototype.slice] for its [end] argument, on an array of [len]
    elements. *)
Definition slice_end (len : nat) (n : number) : nat :=
  match n with
  | NaN => 0%nat
  | PosInfinity => len
  | NegInfinity => 0%nat
  | Finite q =>
      let k := Z.quot (Qnum q) (Z.pos (Qden q)) in
      if k <? 0 then Z.to_nat (Z.max (Z.of_nat len + k) 0)
      else Z.to_nat (Z.min k (Z.of_nat len))
  end.

(** ** Treasury data ([backend/src/services/data/treasury.ts]) *)

Module Treasury.

Inductive AccountType : Type :=
  | checking
  | savings
  | payroll.

Record BankAccount : Type := mkAccount {
  accountId : jsstring;
  accountName : jsstring;
  accountNumber : jsstring;
  balance : number;
  type : AccountType
}.

Inductive TransactionStatus : Type :=
  | pending
  | completed
  | failed.

Record Transaction : Type := mkTransaction {
  id : jsstring;
  date : jsstring;
  amount : number;
  from : jsstring;
  to : jsstring;
  description : jsstring;
  status : TransactionStatus
}.

(** The two module-level arrays. *)
Record Bank : Type := mkBank {
  bankAccounts : list BankAccount;
  transactionHistory : list Transaction
}.

(** The result object of [simulateTransfer]. *)
Record TransferResult : Type := mkResult {
  success : bool;
  transactionId : option jsstring;
  error : option jsstring
}.

(** [getBankAccount(accountId)]: the first account with that id. *)
Definition getBankAccount (accountId0 : jsstring) (bank : Bank) : option BankAccount :=
  List.find (fun acc => bool_decide (accountId acc = accountId0))
    (bankAccounts bank).

(** [getAllBankAccounts()]. *)
Definition getAllBankAccounts (bank : Bank) : list BankAccount :=
  bankAccounts bank.

(** [getTransactionHistory(limit)]. *)
Definition getTransactionHistory (limit : option number) (bank : Bank)
    : list Transaction :=
  match limit with
  | Some n =>
      if num_truthy n then
        take (slice_end (length (transactionHistory bank)) n)
          (transactionHistory bank)
      else transactionHistory bank
  | None => transactionHistory bank
  end.

(** [account.balance -= amount] on the account that [find] returned: the
    first one with the id. *)
Fixpoint debit (accountId0 : jsstring) (amount0 : number)
    (accounts : list BankAccount) : list BankAccount :=
  match accounts with
  | [] => []
  | acc :: rest =>
      if bool_decide (accountId acc = accountId0) then
        mkAccount (accountId acc) (accountName acc) (accountNumber acc)
          (num_sub (balance acc) amount0) (type acc)
        :: rest
      else acc :: debit accountId0 amount0 rest
  end.

Section Transfer.

(** The date part of [Date.prototype.toISOString], a function of the
    clock. *)
Variable isoDate : Z -> jsstring.

(** [simulateTransfer(fromAccountId, toAccount, amount, description)] at
    time [now]. *)
Definition simulateTransfer (fromAccountId toAccount : jsstring)
    (amount0 : number) (description0 : jsstring) (now : Z) (bank : Bank)
    : TransferResult * Bank :=
  match getBankAccount fromAccountId bank with
  | None =>
      (mkResult false None (Some (lit "Source account not found")), bank)
  | Some account =>
      if num_lt (balance account) amount0 then
        (mkResult false None (Some (lit "Insufficient funds")), bank)
      else if num_le amount0 (of_Z 0) then
        (mkResult false None (Some (lit "Invalid amount")), bank)
      else
        let transactionId0 := lit "TXN" ++ Z_to_string now in
        let newTransaction :=
          mkTransaction transactionId0 (isoDate now) amount0 fromAccountId
            toAccount description0 completed in
        (mkResult true (Some transactionId0) None,
         mkBank (debit fromAccountId amount0 (bankAccounts bank))
           (newTransaction :: transactionHistory bank))
  end.

End Transfer.

(** No account is overdrawn: every balance is a finite number that is not
    negative. *)
Definition solvent (bank : Bank) : Prop :=
  Forall (fun acc => exists q, balance acc = Finite q /\ (0 <= q)%Q)
    (bankAccounts bank).

(** The three accounts of the demo, before any transaction. *)
Definition demo_bank : Bank :=
  mkBank
    [mkAccount (lit "ACC001") (lit "Main Checking") (lit "****1234")
       (of_Z 5250000) checking;
     mkAccount (lit "ACC002") (lit "Payroll Account") (lit "****5678")
       (of_Z 1850000) payroll;
     mkAccount (lit "ACC003") (lit "Reserve Savings") (lit "****9012")
       (of_Z 10500000) savings]
    [].

End Treasury.

(** ** The approval routes ([backend/src/routes/approvals.ts]) *)

(** The JSON body of a response. *)
Inductive ResponseBody : Type :=
  | ErrorBody (error : jsstring)
  | RequestsBody (requests : list CIBARequest) (count : nat)
  | RequestBody (request : CIBARequest)
  | MessageBody (message : jsstring) (request : option CIBARequest).

Record Response : Type := mkResponse {
  statusCode : Z;
  body : ResponseBody
}.

(** [GET /pending] for the authenticated user [sub]. *)
Definition pendingRoute (sub : jsstring) (w : World) : Response * World :=
  let (pendingRequests0, w') := getPendingRequestsForUser sub w in
  (mkResponse 200 (RequestsBody pendingRequests0 (length pendingRequests0)), w').

(** [GET /:authReqId]. *)
Definition requestRoute (sub authReqId : jsstring) (w : World)
    : Response * World :=
  match getRequest authReqId w with
  | None => (mkResponse 404 (ErrorBody (lit "Approval request not found")), w)
  | Some request =>
      if bool_decide (userId request ≠ sub) then
        (mkResponse 403 (ErrorBody (lit "Access denied")), w)
      else (mkResponse 200 (RequestBody request), w)
  end.

(** The handlers of [POST /:authReqId/approve] and [POST /:authReqId/deny]
    differ in the service call and in two strings. *)
Definition resolveRoute (resolve : jsstring -> World -> bool * World)
    (failure done : string) (sub authReqId : jsstring) (w : World)
    : Response * World :=
  match getRequest authReqId w with
  | None => (mkResponse 404 (ErrorBody (lit "Approval request not found")), w)
  | Some request =>
      if bool_decide (userId request ≠ sub) then
        (mkResponse 403 (ErrorBody (lit "Access denied")), w)
      else
        let (success, w') := resolve authReqId w in
        if negb success then (mkResponse 400 (ErrorBody (lit failure)), w')
        else
          (mkResponse 200 (MessageBody (lit done) (getRequest authReqId w')), w')
  end.

(** [POST /:authReqId/approve]. *)
Definition approveRoute : jsstring -> jsstring -> World -> Response * World :=
  resolveRoute approveRequest "Failed to approve request" "Request approved".

(** [POST /:authReqId/deny]. *)
Definition denyRoute : jsstring -> jsstring -> World -> Response * World :=
  resolveRoute denyRequest "Failed to deny request" "Request denied".

(** ** Concrete states for the instances below *)

(** A simulated request: the authority is unreachable. *)
Definition simulated_id : jsstring := authReqId (demo_initiated offline).1.

Definition simulated_world : World := (demo_initiated offline).2.

(** A real request ["req-1"] at an authority that grants the token. *)
Definition granted_world : World := (demo_initiated granting).2.

(** A real request ["req-1"] at an authority whose polls fail. *)
Definition flaky_world : World := (demo_initiated flaky).2.

(** A calendar that always reads the same day. *)
Definition fixed_day : Z -> jsstring := fun _ => lit "2024-01-15".

(** * Properties *)

(** ** Rendering, checked on samples *)

Example binding_50000 :
  createBindingMessage (lit "Transfer $50,000")
    (mkDetails transfer (lit "Transfer $50,000 from ACC001 to ACC999")
       (Some (of_Z 50000)) (Some (lit "ACC001")) (Some (lit "ACC999")) None)
  = lit "Approve transfer of 50,000 USD to ACC999".
Proof. vm_compute. reflexivity. Qed.

Example locale_samples :
  toLocaleString (of_Z 1234567) = lit "1,234,567"
  /\ toLocaleString (of_Z (-999)) = lit "-999"
  /\ toLocaleString (of_Z 1000) = lit "1,000"
  /\ toLocaleString (of_Z 0) = lit "0"
  /\ toLocaleString (Finite (7500050 # 100)) = lit "75,000.5"
  /\ toLocaleString (Finite (12345 # 10000)) = lit "1.235"
  /\ toLocaleString (Finite (-1 # 10000)) = lit "-0".
Proof. vm_compute. repeat split; reflexivity. Qed.

(** ** Risk policy *)

Lemma opt_num_or_finite (q : Q) :
  num_gt (opt_num_or (Some (Finite q)) (of_Z 0)) (of_Z 50000) = true
  <-> (inject_Z 50000 < q)%Q.
Proof.
  unfold opt_num_or, num_truthy, of_Z.
  destruct (Qeq_bool q 0) eqn:Hz; simpl.
  - apply Qeq_bool_iff in Hz. split.
    + intros H. vm_compute in H. discriminate.
    + intros H. rewrite Hz in H. vm_compute in H. discriminate.
  - rewrite negb_true_iff. split.
    + intros H. apply Qnot_le_lt. intros Hle.
      apply Qle_bool_iff in Hle. congruence.
    + intros H. destruct (Qle_bool q (inject_Z 50000)) eqn:Hle; [|reflexivity].
      apply Qle_bool_iff in Hle. exfalso. revert H. apply Qle_not_lt, Hle.
Qed.

(** C5. [requiresApproval] is a total function of the operation kind and the
    amount.  For kind [transfer] it is true exactly when the amount exceeds
    50,000: for a finite amount [q] iff [50000 < q] (so false at 50,000 and
    true just above), true for +Infinity, false for -Infinity, NaN and a
    missing amount.  For [sensitive_operation] it is always true, for every
    other kind always false. *)
Theorem requiresApproval_threshold :
  (forall q : Q,
      requiresApproval (lit "transfer") (Some (Finite q)) = true
      <-> (inject_Z 50000 < q)%Q)
  /\ (forall z : Z,
        requiresApproval (lit "transfer") (Some (of_Z z)) = (50000 <? z))
  /\ requiresApproval (lit "transfer") (Some PosInfinity) = true
  /\ requiresApproval (lit "transfer") (Some NegInfinity) = false
  /\ requiresApproval (lit "transfer") (Some NaN) = false
  /\ requiresApproval (lit "transfer") None = false
  /\ (forall a, requiresApproval (lit "sensitive_operation") a = true)
  /\ (forall kind a,
        kind <> lit "transfer" -> kind <> lit "sensitive_operation" ->
        requiresApproval kind a = false).
Proof.
  split; [|split; [|do 4 (split; [reflexivity|]); split]].
  - intros q. apply opt_num_or_finite.
  - intros z.
    destruct (50000 <? z) eqn:Hz.
    + apply (opt_num_or_finite (inject_Z z)). rewrite <- Zlt_Qlt. lia.
    + destruct (requiresApproval (lit "transfer") (Some (of_Z z))) eqn:Hr;
        [|reflexivity].
      apply (opt_num_or_finite (inject_Z z)) in Hr.
      rewrite <- Zlt_Qlt in Hr. lia.
  - intros a. reflexivity.
  - intros kind a Ht Hs. unfold requiresApproval.
    rewrite !bool_decide_eq_false_2 by assumption. reflexivity.
Qed.

Lemma requiresApproval_threshold_witness :
  requiresApproval (lit "payroll_access") (Some (of_Z 75000)) = false
  /\ requiresApproval (lit "transfer") (Some (of_Z 50000)) = false
  /\ requiresApproval (lit "transfer") (Some (of_Z 50001)) = true.
Proof.
  destruct requiresApproval_threshold as (_ & Hz & _ & _ & _ & _ & _ & Hother).
  split; [|split].
  - apply Hother; discriminate.
  - rewrite Hz. reflexivity.
  - rewrite Hz. reflexivity.
Defined.

(** ** Binding message *)

Lemma kept_allowed (c : N) : kept c = allowed c.
Proof.
  unfold kept, allowed, is_word, is_letter, is_digit.
  destruct (c =? 95)%N eqn:H95.
  - apply N.eqb_eq in H95. subst c. reflexivity.
  - rewrite orb_false_r.
    destruct ((48 <=? c) && (c <=? 57))%N,
             ((65 <=? c) && (c <=? 90))%N,
             ((97 <=? c) && (c <=? 122))%N; reflexivity.
Qed.

Lemma all_allowed_app (s t : jsstring) :
  all_allowed s -> all_allowed t -> all_allowed (s ++ t).
Proof. intros Hs Ht. apply Forall_app. split; assumption. Qed.

Lemma all_allowed_rev (s : jsstring) : all_allowed s -> all_allowed (rev s).
Proof. intros Hs. apply List.Forall_rev. exact Hs. Qed.

Lemma sanitize_allowed (text : jsstring) : all_allowed (sanitize text).
Proof.
  unfold all_allowed, sanitize. apply Forall_forall. intros c Hc.
  apply list_elem_of_filter in Hc as [Hk _]. rewrite <- kept_allowed. exact Hk.
Qed.

Lemma all_allowed_lit_check (s : jsstring) :
  forallb allowed s = true -> all_allowed s.
Proof.
  intros H. apply Forall_forall. intros c Hc.
  rewrite forallb_forall in H. apply H. apply list_elem_of_In. exact Hc.
Qed.

Lemma digit_allowed (d : N) : (d < 10)%N -> allowed (digit d) = true.
Proof.
  intros Hd. unfold allowed, is_digit, digit.
  replace ((48 <=? 48 + d)%N) with true by (symmetry; apply N.leb_le; lia).
  replace ((48 + d <=? 57)%N) with true by (symmetry; apply N.leb_le; lia).
  rewrite orb_true_r. reflexivity.
Qed.

Lemma uint_digits_allowed (u : Decimal.uint) : all_allowed (uint_digits u).
Proof.
  induction u; simpl; constructor; try assumption; apply digit_allowed; lia.
Qed.

Lemma group_rev_allowed (s : jsstring) (k : nat) :
  all_allowed s -> all_allowed (group_rev k s).
Proof.
  intros Hs. revert k. induction Hs as [|c s Hc Hs IH]; intros k; simpl.
  - constructor.
  - destruct k as [|[|[|[|k]]]]; repeat constructor; try assumption; apply IH.
Qed.

Lemma strip_trailing_zeros_allowed (s : jsstring) :
  all_allowed s -> all_allowed (strip_trailing_zeros s).
Proof.
  induction 1 as [|c s Hc Hs IH]; simpl.
  - constructor.
  - destruct (c =? digit 0)%N; [exact IH | constructor; assumption].
Qed.

(** The rendering of a finite number or of NaN draws on digits, [","],
    ["."], ["-"] and letters only. *)
Lemma toLocaleString_allowed (n : number) :
  n <> PosInfinity -> n <> NegInfinity -> all_allowed (toLocaleString n).
Proof.
  intros Hp Hn. destruct n as [q | | |]; try congruence.
  - unfold toLocaleString.
    repeat apply all_allowed_app.
    + destruct (Qnum q <? 0); [apply all_allowed_lit_check; reflexivity | constructor].
    + apply all_allowed_rev, group_rev_allowed, all_allowed_rev, uint_digits_allowed.
    + match goal with |- all_allowed (match ?f with _ => _ end) =>
        assert (Hf : all_allowed f); [|destruct f; [constructor|]]
      end.
      * apply all_allowed_rev, strip_trailing_zeros_allowed.
        repeat constructor; apply digit_allowed.
        -- apply N.mod_lt. discriminate.
        -- apply N.mod_lt. discriminate.
        -- apply N.Div0.div_lt_upper_bound.
           eapply N.lt_le_trans; [apply N.mod_lt; discriminate|]. simpl. lia.
      * apply all_allowed_app; [apply all_allowed_lit_check; reflexivity | exact Hf].
  - apply all_allowed_lit_check. reflexivity.
Qed.

(** X18. Every message built from a sanitised description, and every transfer
    message whose amount is absent or not infinite, stays inside the
    accepted character set. *)
Lemma createBindingMessage_allowed (operation : jsstring) (details : Details) :
  (type details = transfer ->
   amount details <> Some PosInfinity /\ amount details <> Some NegInfinity) ->
  all_allowed (createBindingMessage operation details).
Proof.
  intros Hfin. unfold createBindingMessage.
  destruct (type details) eqn:Ht.
  - destruct (Hfin eq_refl) as [Hp Hn].
    repeat apply all_allowed_app; try (apply all_allowed_lit_check; reflexivity).
    + destruct (amount details) as [n|]; simpl.
      * assert (Ha : all_allowed (toLocaleString n))
          by (apply toLocaleString_allowed; congruence).
        destruct (toLocaleString n); [apply all_allowed_lit_check; reflexivity | exact Ha].
      * apply all_allowed_lit_check; reflexivity.
    + apply sanitize_allowed.
  - repeat apply all_allowed_app; try (apply all_allowed_lit_check; reflexivity);
      apply sanitize_allowed.
  - repeat apply all_allowed_app; try (apply all_allowed_lit_check; reflexivity);
      apply sanitize_allowed.
Qed.

(** C9. A transfer whose amount is [Infinity] (what [parseFloat] makes of
    an amount of several hundred digits) yields a binding message that
    contains U+221E, the infinity sign, which is neither a letter, a digit,
    whitespace nor one of [+-_.,:#]: the amount is interpolated without
    passing through [sanitize]. *)
Theorem createBindingMessage_infinite_amount :
  let details :=
    mkDetails transfer (lit "Transfer") (Some PosInfinity)
      (Some (lit "ACC001")) (Some (lit "ACC999")) None in
  createBindingMessage (lit "Transfer") details
  = lit "Approve transfer of " ++ [8734%N] ++ lit " USD to ACC999"
  /\ allowed 8734%N = false
  /\ ~ all_allowed (createBindingMessage (lit "Transfer") details).
Proof.
  split; [reflexivity|]. split; [reflexivity|].
  intros H. apply Forall_forall with (x := 8734%N) in H.
  - discriminate H.
  - vm_compute. apply list_elem_of_In. vm_compute. tauto.
Qed.

(** ** Polling and the manual override *)

Section ServiceProperties.

Variable env : Environment.

(** C8. For an id the map does not hold, [pollCIBAResult] returns
    [expired], [approveRequest] and [denyRequest] return [false]; each
    returns normally and leaves the world as it was. *)
Theorem unknown_request (authReqId : jsstring) (w : World) :
  pendingRequests w !! authReqId = None ->
  pollCIBAResult env authReqId w = (expired, w)
  /\ approveRequest authReqId w = (false, w)
  /\ denyRequest authReqId w = (false, w).
Proof.
  intros Hnone.
  unfold pollCIBAResult, approveRequest, denyRequest, resolveRequest.
  rewrite Hnone. auto.
Qed.

(** C2. When the deadline of a stored request has passed, a poll marks it
    [expired] in the map and returns [expired]; the network log and the
    clock are untouched, so the authority is not asked, whatever it would
    have answered and whatever the status was. *)
Theorem poll_after_deadline (authReqId : jsstring) (w : World)
    (request : CIBARequest) :
  pendingRequests w !! authReqId = Some request ->
  expiresAt request < clock w ->
  let (result, w') := pollCIBAResult env authReqId w in
  result = expired
  /\ pendingRequests w' = <[authReqId := set_status expired request]> (pendingRequests w)
  /\ (status <$> getRequest authReqId w') = Some expired
  /\ network w' = network w
  /\ clock w' = clock w.
Proof.
  intros Hget Hlate. unfold pollCIBAResult. rewrite Hget.
  apply Z.ltb_lt in Hlate. rewrite Hlate.
  unfold getRequest. simpl. rewrite lookup_insert_eq. auto.
Qed.

(** A poll never moves the clock backwards. *)
Lemma poll_clock_mono (authReqId : jsstring) (w : World) :
  clock w <= clock (pollCIBAResult env authReqId w).2.
Proof.
  unfold pollCIBAResult. repeat case_match; simpl; lia.
Qed.

Lemma timer_delay_pos (ms : Z) : 1 <= timer_delay ms.
Proof. unfold timer_delay. case_match; [lia|]. lia. Qed.

(** C10. With a wait budget of zero or less the loop body never runs:
    the result is [timeout], no poll is made and the world is unchanged,
    whatever the state of the request. *)
Theorem waitForApproval_no_budget (fuel : nat) (authReqId : jsstring)
    (maxWaitMs : Z) (w : World) :
  maxWaitMs <= 0 ->
  waitForApproval env fuel authReqId maxWaitMs w = Some (timeout, [], w).
Proof.
  intros Hbudget. unfold waitForApproval.
  destruct fuel; simpl;
    (replace (clock w - clock w <? maxWaitMs) with false
      by (symmetry; apply Z.ltb_ge; lia)); reflexivity.
Qed.

(** One unfolding of the loop. *)
Lemma waitLoop_unfold (fuel : nat) (authReqId : jsstring)
    (startTime maxWaitMs pollIntervalMs : Z) (w : World) :
  waitLoop env fuel authReqId startTime maxWaitMs pollIntervalMs w =
  if clock w - startTime <? maxWaitMs then
    match fuel with
    | O => None
    | S fuel' =>
        let (result, w1) := pollCIBAResult env authReqId w in
        if bool_decide (result = approved) then Some (approved, [result], w1)
        else if bool_decide (result = denied) then Some (denied, [result], w1)
        else if bool_decide (result = expired) then Some (expired, [result], w1)
        else
          let pollIntervalMs' :=
            adopt_interval (pendingRequests w1 !! authReqId) pollIntervalMs in
          match waitLoop env fuel' authReqId startTime maxWaitMs pollIntervalMs'
                  (setTimeout env pollIntervalMs' w1) with
          | Some (tag, polls, w') => Some (tag, result :: polls, w')
          | None => None
          end
    end
  else Some (timeout, [], w).
Proof. destruct fuel; reflexivity. Qed.

(** The loop returns once the clock has run through the budget: every
    iteration takes at least a millisecond. *)
Lemma waitLoop_terminates (fuel : nat) :
  forall (authReqId : jsstring) (startTime maxWaitMs pollIntervalMs : Z)
         (w : World),
    (Z.to_nat (maxWaitMs - (clock w - startTime)) <= fuel)%nat ->
    is_Some (waitLoop env fuel authReqId startTime maxWaitMs pollIntervalMs w).
Proof.
  induction fuel as [|fuel IH]; intros id start maxWait p w Hfuel;
    rewrite waitLoop_unfold;
    destruct (clock w - start <? maxWait) eqn:Hcond; try (eexists; reflexivity).
  - apply Z.ltb_lt in Hcond. lia.
  - apply Z.ltb_lt in Hcond.
    pose proof (poll_clock_mono id w) as Hmono.
    destruct (pollCIBAResult env id w) as [result w1]. simpl in Hmono.
    repeat (case_bool_decide; [eexists; reflexivity|]).
    cbv zeta. set (p' := adopt_interval _ _).
    destruct (IH id start maxWait p' (setTimeout env p' w1)) as [[[tag polls] w'] Hrun].
    + simpl. pose proof (timer_delay_pos p'). lia.
    + rewrite Hrun. eexists; reflexivity.
Qed.

(** More fuel does not change a result. *)
Lemma waitLoop_fuel_mono (fuel : nat) :
  forall (fuel' : nat) (authReqId : jsstring)
         (startTime maxWaitMs pollIntervalMs : Z) (w : World) out,
    waitLoop env fuel authReqId startTime maxWaitMs pollIntervalMs w = Some out ->
    (fuel <= fuel')%nat ->
    waitLoop env fuel' authReqId startTime maxWaitMs pollIntervalMs w = Some out.
Proof.
  induction fuel as [|fuel IH]; intros fuel' id start maxWait p w out;
    rewrite !waitLoop_unfold;
    destruct (clock w - start <? maxWait) eqn:Hcond; try discriminate;
    try (destruct fuel'; intros; assumption).
  intros Hrun Hle. destruct fuel' as [|fuel']; [lia|].
  destruct (pollCIBAResult env id w) as [result w1].
  repeat (case_bool_decide; [assumption|]).
  cbv zeta in *. set (p' := adopt_interval _ _) in *.
  destruct (waitLoop env fuel id start maxWait p' (setTimeout env p' w1))
    as [[[tag polls] w']|] eqn:Hrec; [|discriminate].
  rewrite (IH fuel' _ _ _ _ _ _ Hrec) by lia. exact Hrun.
Qed.

(** What the loop returns, in terms of the polls it made: [timeout] after
    polls that were all non-terminal and with the budget used up, or the
    terminal result of its last poll. *)
Lemma waitLoop_result (fuel : nat) :
  forall (authReqId : jsstring) (startTime maxWaitMs pollIntervalMs : Z)
         (w : World) tag polls w',
    waitLoop env fuel authReqId startTime maxWaitMs pollIntervalMs w
    = Some (tag, polls, w') ->
    (tag = timeout /\ Forall nonterminal polls
     /\ maxWaitMs <= clock w' - startTime)
    \/ ((tag = approved \/ tag = denied \/ tag = expired)
        /\ exists earlier, polls = earlier ++ [tag] /\ Forall nonterminal earlier).
Proof.
  induction fuel as [|fuel IH]; intros id start maxWait p w tag polls w';
    rewrite waitLoop_unfold;
    destruct (clock w - start <? maxWait) eqn:Hcond; try discriminate;
    try (intros [= <- <- <-]; left; apply Z.ltb_ge in Hcond;
         repeat split; [constructor | lia]).
  destruct (pollCIBAResult env id w) as [result w1].
  case_bool_decide as Ha;
    [intros [= <- <- <-]; right; split; [tauto|];
     exists []; rewrite Ha; split; [reflexivity | constructor] |].
  case_bool_decide as Hd;
    [intros [= <- <- <-]; right; split; [tauto|];
     exists []; rewrite Hd; split; [reflexivity | constructor] |].
  case_bool_decide as He;
    [intros [= <- <- <-]; right; split; [tauto|];
     exists []; rewrite He; split; [reflexivity | constructor] |].
  cbv zeta. set (p' := adopt_interval _ _).
  destruct (waitLoop env fuel id start maxWait p' (setTimeout env p' w1))
    as [[[tag0 polls0] w0]|] eqn:Hrec; [|discriminate].
  intros [= <- <- <-].
  destruct (IH _ _ _ _ _ _ _ _ Hrec) as [(Ht & Hall & Hel) | (Ht & earlier & Hp & Hall)].
  - left. repeat split; try assumption. constructor; [|assumption].
    repeat split; assumption.
  - right. split; [assumption|]. exists (result :: earlier). split.
    + rewrite Hp. reflexivity.
    + constructor; [|assumption]. repeat split; assumption.
Qed.

(** The loop round by round: a result of the loop comes after [n] rounds
    that were all within the budget and whose polls were all
    non-terminal.  It is [timeout] with the world those rounds left, when
    the budget is then used up, or the terminal result of the poll made in
    that world, with the world that poll left. *)
Lemma waitLoop_rounds (fuel : nat) :
  forall (authReqId : jsstring) (startTime maxWaitMs pollIntervalMs : Z)
         (w : World) tag polls w',
    waitLoop env fuel authReqId startTime maxWaitMs pollIntervalMs w
    = Some (tag, polls, w') ->
    let world k := (after_rounds env k authReqId pollIntervalMs w).2 in
    let answer k := (pollCIBAResult env authReqId (world k)).1 in
    exists n : nat,
      (forall k, (k < n)%nat ->
          clock (world k) - startTime < maxWaitMs /\ nonterminal (answer k))
      /\ ((tag = timeout
           /\ maxWaitMs <= clock (world n) - startTime
           /\ polls = map answer (seq 0 n)
           /\ w' = world n)
          \/ ((tag = approved \/ tag = denied \/ tag = expired)
              /\ clock (world n) - startTime < maxWaitMs
              /\ pollCIBAResult env authReqId (world n) = (tag, w')
              /\ polls = map answer (seq 0 (S n)))).
Proof.
  induction fuel as [|fuel IH]; intros id start maxWait p w tag polls w';
    rewrite waitLoop_unfold;
    destruct (clock w - start <? maxWait) eqn:Hcond; try discriminate;
    try (intros [= <- <- <-]; apply Z.ltb_ge in Hcond; exists 0%nat;
         split; [intros k Hk; lia | left; cbn; repeat split; lia]).
  apply Z.ltb_lt in Hcond.
  destruct (pollCIBAResult env id w) as [result w1] eqn:Hpoll.
  assert (Hnow : forall t : Status,
             result = t -> t = approved \/ t = denied \/ t = expired ->
             Some (t, [result], w1) = Some (tag, polls, w') ->
             exists n : nat,
               (forall k, (k < n)%nat ->
                   clock (after_rounds env k id p w).2 - start < maxWait
                   /\ nonterminal
                        (pollCIBAResult env id (after_rounds env k id p w).2).1)
               /\ ((tag = timeout
                    /\ maxWait <= clock (after_rounds env n id p w).2 - start
                    /\ polls
                       = map (fun k =>
                                (pollCIBAResult env id
                                   (after_rounds env k id p w).2).1) (seq 0 n)
                    /\ w' = (after_rounds env n id p w).2)
                   \/ ((tag = approved \/ tag = denied \/ tag = expired)
                       /\ clock (after_rounds env n id p w).2 - start < maxWait
                       /\ pollCIBAResult env id (after_rounds env n id p w).2
                          = (tag, w')
                       /\ polls
                          = map (fun k =>
                                   (pollCIBAResult env id
                                      (after_rounds env k id p w).2).1)
                              (seq 0 (S n))))).
  { intros t Ht Hterm [= <- <- <-]. exists 0%nat.
    split; [intros k Hk; lia|]. right. cbn [after_rounds snd seq map].
    rewrite Hpoll, Ht. cbn [fst]. repeat split; [exact Hterm | exact Hcond]. }
  cbv beta zeta.
  case_bool_decide as Ha; [apply (Hnow approved); tauto|].
  case_bool_decide as Hd; [apply (Hnow denied); tauto|].
  case_bool_decide as He; [apply (Hnow expired); tauto|].
  clear Hnow. set (p' := adopt_interval _ _).
  destruct (waitLoop env fuel id start maxWait p' (setTimeout env p' w1))
    as [[[tag0 polls0] w0]|] eqn:Hrec; [|discriminate].
  intros [= <- <- <-].
  destruct (IH _ _ _ _ _ _ _ _ Hrec) as (n & Hbefore & Hend). cbv beta zeta in *.
  assert (Hshift : forall k,
             (after_rounds env (S k) id p w).2
             = (after_rounds env k id p' (setTimeout env p' w1)).2).
  { intros k. cbn [after_rounds]. rewrite Hpoll. reflexivity. }
  assert (Hmap : forall m,
             map (fun k =>
                    (pollCIBAResult env id (after_rounds env k id p w).2).1)
               (seq 0 (S m))
             = result
               :: map (fun k =>
                         (pollCIBAResult env id
                            (after_rounds env k id p' (setTimeout env p' w1)).2).1)
                    (seq 0 m)).
  { intros m. cbn [seq map after_rounds snd]. rewrite Hpoll. cbn [fst].
    f_equal. rewrite <- seq_shift, map_map.
    apply map_ext. intros k. rewrite Hshift. reflexivity. }
  exists (S n). split.
  - intros [|k] Hk.
    + cbn [after_rounds snd]. rewrite Hpoll. cbn [fst].
      split; [exact Hcond | repeat split; assumption].
    + rewrite Hshift. apply Hbefore. lia.
  - rewrite !Hshift, !Hmap.
    destruct Hend as [(Ht & Hel & Hp & Hw) | (Ht & Hin & Hlast & Hp)].
    + left. rewrite Hp, Hw. repeat split; assumption.
    + right. rewrite Hp. repeat split; assumption.
Qed.

(** C3. [waitForApproval] returns: fuel for one iteration per
    millisecond of budget is enough, and more fuel gives the same result.
    Its tag is never [pending].  If no poll yielded [approved], [denied] or
    [expired], the tag is [timeout] and at least [maxWaitMs] have elapsed
    since the loop started.  Conversely [timeout] is returned only after
    polls that were all non-terminal, and [expired] only as the result of
    the last poll, so the two are never confused.  The polls are those of
    [pollCIBAResult] in the worlds the rounds of the wait go through: the
    wait makes [n] rounds, each within the budget and with a poll that is
    not terminal, and then either finds the budget used up and returns
    [timeout] with the world as the last sleep left it, or is within the
    budget, polls once more and returns the terminal result of that poll
    with the world as the poll left it. *)
Theorem waitForApproval_timeout (authReqId : jsstring) (maxWaitMs : Z)
    (w : World) :
  exists tag polls w',
    (forall fuel : nat,
        (Z.to_nat maxWaitMs <= fuel)%nat ->
        waitForApproval env fuel authReqId maxWaitMs w
        = Some (tag, polls, w'))
    /\ tag <> pending
    /\ (Forall nonterminal polls ->
        tag = timeout /\ maxWaitMs <= clock w' - clock w)
    /\ (tag = timeout -> Forall nonterminal polls)
    /\ (tag = expired -> last polls = Some expired)
    /\ exists n : nat,
        (forall k, (k < n)%nat ->
            clock (round_world env authReqId w k) - clock w < maxWaitMs
            /\ nonterminal (round_poll env authReqId w k))
        /\ ((tag = timeout
             /\ maxWaitMs <= clock (round_world env authReqId w n) - clock w
             /\ polls = map (round_poll env authReqId w) (seq 0 n)
             /\ w' = round_world env authReqId w n)
            \/ ((tag = approved \/ tag = denied \/ tag = expired)
                /\ clock (round_world env authReqId w n) - clock w < maxWaitMs
                /\ pollCIBAResult env authReqId (round_world env authReqId w n)
                   = (tag, w')
                /\ polls = map (round_poll env authReqId w) (seq 0 (S n)))).
Proof.
  unfold waitForApproval.
  set (p := opt_Z_or _ 5 * 1000).
  destruct (waitLoop_terminates (Z.to_nat maxWaitMs) authReqId (clock w)
              maxWaitMs p w) as [[[tag polls] w'] Hrun]; [lia|].
  exists tag, polls, w'.
  split; [intros fuel Hfuel; exact (waitLoop_fuel_mono _ _ _ _ _ _ _ _ Hrun Hfuel)|].
  assert (Hrounds := waitLoop_rounds _ _ _ _ _ _ _ _ _ Hrun).
  destruct (waitLoop_result _ _ _ _ _ _ _ _ _ Hrun)
    as [(Ht & Hall & Hel) | (Ht & earlier & Hp & Hall)].
  - subst tag. split; [discriminate|]. split; [|split; [|split]].
    + intros _. split; [reflexivity | lia].
    + intros _. assumption.
    + discriminate.
    + exact Hrounds.
  - split; [destruct Ht as [-> | [-> | ->]]; discriminate|].
    split; [|split; [|split]].
    + intros Hpolls. exfalso. rewrite Hp in Hpolls.
      apply Forall_app in Hpolls as [_ Hlast].
      apply Forall_inv in Hlast. unfold nonterminal in Hlast.
      destruct Ht as [-> | [-> | ->]]; tauto.
    + intros ->. destruct Ht as [? | [? | ?]]; discriminate.
    + intros ->. rewrite Hp. apply last_snoc.
    + exact Hrounds.
Qed.

End ServiceProperties.

(** ** Initiation *)

Lemma startsWith_app (prefix rest : jsstring) :
  startsWith (prefix ++ rest) prefix = true.
Proof.
  induction prefix as [|c prefix IH]; simpl; [reflexivity|].
  rewrite N.eqb_refl. exact IH.
Qed.

Section Initiation.

Variable env : Environment.

(** C4. When the call to the authority fails, whatever the error,
    [initiateCIBARequest] still returns a request: its id is
    ["SIMULATED-"] followed by the creation time, so it carries the prefix
    by which the service tells simulated requests apart; it is [pending],
    expires 300 seconds after its creation, has no response time, keeps
    the caller's data and the binding message, and is stored under its
    id.  A poll right away finds it pending without a network call. *)
Theorem initiate_fallback (uid email op : jsstring) (d : Details)
    (w : World) (errorCode : option jsstring) :
  bcAuthorize env w uid (createBindingMessage op d) = Rejected errorCode ->
  let (request, w') := initiateCIBARequest env uid email op d w in
  authReqId request = lit "SIMULATED-" ++ Z_to_string (requestedAt request)
  /\ startsWith (authReqId request) (lit "SIMULATED-") = true
  /\ status request = pending
  /\ requestedAt request = clock w'
  /\ expiresAt request = requestedAt request + 300 * 1000
  /\ respondedAt request = None
  /\ interval request = None
  /\ userId request = uid
  /\ userEmail request = Some email
  /\ operation request = op
  /\ details request = d
  /\ bindingMessage request = Some (createBindingMessage op d)
  /\ getRequest (authReqId request) w' = Some request
  /\ pollCIBAResult env (authReqId request) w' = (pending, w').
Proof.
  intros Hfail. unfold initiateCIBARequest. rewrite Hfail.
  set (w1 := sent env _ w).
  set (id := lit "SIMULATED-" ++ Z_to_string (clock w1)).
  set (request := mkRequest id _ _ _ _ _ _ _ _ _ _).
  assert (Hget : pendingRequests (store_set id request w1) !! id = Some request)
    by apply lookup_insert_eq.
  assert (Hsim : startsWith id (lit "SIMULATED-") = true)
    by apply startsWith_app.
  repeat split; try reflexivity; try exact Hget; try exact Hsim.
  change (authReqId request) with id.
  unfold pollCIBAResult. rewrite Hget, Hsim. simpl.
  destruct (_ <? _) eqn:Hdue; [apply Z.ltb_lt in Hdue; lia | reflexivity].
Qed.

End Initiation.

(** ** Congestion *)

Section Congestion.

Variable env : Environment.

Lemma intervals_store_set (id : jsstring) (r r' : CIBARequest) (w : World) :
  pendingRequests w !! id = Some r ->
  interval r' = interval r ->
  intervals (store_set id r' w) = intervals w.
Proof.
  intros Hget Hsame. unfold intervals, store_set. simpl.
  rewrite fmap_insert. apply insert_id.
  rewrite lookup_fmap, Hget, Hsame. reflexivity.
Qed.

(** A poll changes a stored interval only on [slow_down]. *)
Lemma poll_intervals (authReqId : jsstring) (w : World) :
  intervals (pollCIBAResult env authReqId w).2 <> intervals w ->
  oauthToken env w authReqId = Rejected (Some (lit "slow_down")).
Proof.
  unfold pollCIBAResult.
  destruct (pendingRequests w !! authReqId) as [r|] eqn:Hget; [|tauto].
  destruct (expiresAt r <? clock w).
  { simpl. erewrite intervals_store_set; [tauto | eassumption | reflexivity]. }
  destruct (startsWith authReqId (lit "SIMULATED-")); [simpl; tauto|].
  destruct (oauthToken env w authReqId) as [data | code].
  - destruct (str_truthy (data_access_token data)); simpl; [|tauto].
    intros H. exfalso. apply H.
    apply (intervals_store_set _ r _ (sent env _ w)); [exact Hget | reflexivity].
  - destruct (is_str code "authorization_pending"); [simpl; tauto|].
    destruct (is_str code "slow_down") eqn:Hslow.
    { intros _. apply bool_decide_eq_true in Hslow. congruence. }
    destruct (is_str code "access_denied").
    { simpl. intros H. exfalso. apply H.
      apply (intervals_store_set _ r _ (sent env _ w)); [exact Hget | reflexivity]. }
    destruct (is_str code "expired_token"); [|simpl; tauto].
    simpl. intros H. exfalso. apply H.
    apply (intervals_store_set _ r _ (sent env _ w)); [exact Hget | reflexivity].
Qed.

Lemma resolveRequest_intervals (s : Status) (authReqId : jsstring) (w : World) :
  intervals (resolveRequest s authReqId w).2 = intervals w.
Proof.
  unfold resolveRequest.
  destruct (pendingRequests w !! authReqId) as [r|] eqn:Hget; [|reflexivity].
  case_bool_decide; [reflexivity|].
  simpl. eapply intervals_store_set; [eassumption | reflexivity].
Qed.

Lemma getPendingRequestsForUser_intervals (uid : jsstring) (w : World) :
  intervals (getPendingRequestsForUser uid w).2 = intervals w.
Proof.
  unfold intervals, getPendingRequestsForUser. simpl.
  rewrite <- map_fmap_compose. apply map_fmap_ext.
  intros id r _. simpl. unfold expire_if_due. case_match; reflexivity.
Qed.

(** What a poll does on [slow_down]. *)
Lemma poll_slow_down (authReqId : jsstring) (w : World) (request : CIBARequest) :
  pendingRequests w !! authReqId = Some request ->
  clock w <= expiresAt request ->
  startsWith authReqId (lit "SIMULATED-") = false ->
  oauthToken env w authReqId = Rejected (Some (lit "slow_down")) ->
  pollCIBAResult env authReqId w
  = (pending,
     store_set authReqId
       (set_interval (opt_Z_or (interval request) 5 + 5) request)
       (sent env (oauth_token authReqId) w)).
Proof.
  intros Hget Hlive Hreal Hslow. unfold pollCIBAResult.
  rewrite Hget, Hreal, Hslow.
  replace (expiresAt request <? clock w) with false
    by (symmetry; apply Z.ltb_ge; lia).
  reflexivity.
Qed.

(** The stored interval of a request after a poll: what it was, or on
    [slow_down] what it was, read as [interval || 5], plus 5. *)
Lemma poll_stored_interval (authReqId : jsstring) (w : World) :
  pendingRequests (pollCIBAResult env authReqId w).2 !! authReqId ≫= interval
  = pendingRequests w !! authReqId ≫= interval
  \/ pendingRequests (pollCIBAResult env authReqId w).2 !! authReqId ≫= interval
     = Some (opt_Z_or (pendingRequests w !! authReqId ≫= interval) 5 + 5).
Proof.
  unfold pollCIBAResult.
  destruct (pendingRequests w !! authReqId) as [r|] eqn:Hget;
    [|left; cbn [snd]; rewrite Hget; reflexivity].
  assert (Hkeep : forall (r' : CIBARequest) (w1 : World),
             interval r' = interval r ->
             pendingRequests (store_set authReqId r' w1) !! authReqId
               ≫= interval
             = Some r ≫= interval).
  { intros r' w1 Hint. cbn [store_set pendingRequests].
    rewrite lookup_insert_eq. exact Hint. }
  destruct (expiresAt r <? clock w);
    [left; cbn [snd]; apply Hkeep; reflexivity|].
  destruct (startsWith authReqId (lit "SIMULATED-"));
    [left; cbn [snd]; rewrite Hget; reflexivity|].
  destruct (oauthToken env w authReqId) as [data | code].
  - destruct (str_truthy (data_access_token data)); cbn [snd].
    + left. apply Hkeep. reflexivity.
    + left. cbn [sent pendingRequests]. rewrite Hget. reflexivity.
  - destruct (is_str code "authorization_pending");
      [left; cbn [snd sent pendingRequests]; rewrite Hget; reflexivity|].
    destruct (is_str code "slow_down").
    { right. cbn [snd store_set pendingRequests].
      rewrite lookup_insert_eq. reflexivity. }
    destruct (is_str code "access_denied");
      [left; cbn [snd]; apply Hkeep; reflexivity|].
    destruct (is_str code "expired_token"); cbn [snd].
    + left. apply Hkeep. reflexivity.
    + left. cbn [sent pendingRequests]. rewrite Hget. reflexivity.
Qed.

Lemma adopt_interval_ge (updatedRequest : option CIBARequest)
    (pollIntervalMs : Z) :
  pollIntervalMs <= adopt_interval updatedRequest pollIntervalMs.
Proof.
  unfold adopt_interval.
  destruct (updatedRequest ≫= interval) as [i|]; [|lia].
  destruct (i =? 0); cbn [negb andb]; [lia|].
  destruct (pollIntervalMs <? i * 1000) eqn:Hlt; [|lia].
  apply Z.ltb_lt in Hlt. lia.
Qed.

(** A cadence that does not exceed the stored interval still does not
    after a round. *)
Lemma adopt_interval_bound (authReqId : jsstring) (w : World)
    (pollIntervalMs : Z) :
  pollIntervalMs
  <= opt_Z_or (pendingRequests w !! authReqId ≫= interval) 5 * 1000 ->
  adopt_interval
    (pendingRequests (pollCIBAResult env authReqId w).2 !! authReqId)
    pollIntervalMs
  <= opt_Z_or
       (pendingRequests (pollCIBAResult env authReqId w).2 !! authReqId
          ≫= interval) 5 * 1000.
Proof.
  intros Hp. unfold adopt_interval.
  destruct (poll_stored_interval authReqId w) as [-> | ->].
  - destruct (pendingRequests w !! authReqId ≫= interval) as [i|];
      cbn [opt_Z_or] in *; [|exact Hp].
    destruct (i =? 0); cbn [negb andb]; [exact Hp|].
    destruct (pollIntervalMs <? i * 1000); lia.
  - set (current := opt_Z_or _ 5) in *. cbn [opt_Z_or].
    destruct (current + 5 =? 0) eqn:Hz; cbn [negb andb].
    + apply Z.eqb_eq in Hz. lia.
    + destruct (pollIntervalMs <? (current + 5) * 1000); lia.
Qed.

Lemma after_rounds_add (k : nat) :
  forall (m : nat) (authReqId : jsstring) (pollIntervalMs : Z) (w : World),
    after_rounds env (k + m) authReqId pollIntervalMs w
    = after_rounds env m authReqId
        (after_rounds env k authReqId pollIntervalMs w).1
        (after_rounds env k authReqId pollIntervalMs w).2.
Proof.
  induction k as [|k IH]; intros m id p w; [reflexivity|].
  cbn [Nat.add after_rounds]. apply IH.
Qed.

Lemma after_rounds_ge (n : nat) :
  forall (authReqId : jsstring) (pollIntervalMs : Z) (w : World),
    pollIntervalMs <= (after_rounds env n authReqId pollIntervalMs w).1.
Proof.
  induction n as [|n IH]; intros id p w; cbn [after_rounds fst]; [lia|].
  etransitivity; [apply adopt_interval_ge | apply IH].
Qed.

(** Through a wait the cadence never exceeds the stored interval. *)
Lemma after_rounds_bound (n : nat) :
  forall (authReqId : jsstring) (pollIntervalMs : Z) (w : World),
    pollIntervalMs
    <= opt_Z_or (pendingRequests w !! authReqId ≫= interval) 5 * 1000 ->
    (after_rounds env n authReqId pollIntervalMs w).1
    <= opt_Z_or
         (pendingRequests (after_rounds env n authReqId pollIntervalMs w).2
            !! authReqId ≫= interval) 5 * 1000.
Proof.
  induction n as [|n IH]; intros id p w Hp; [exact Hp|].
  cbn [after_rounds]. apply IH. cbn [setTimeout pendingRequests].
  apply adopt_interval_bound, Hp.
Qed.

(** A loop whose first [k] rounds are within the budget and poll without
    a terminal result goes on from the world those rounds leave. *)
Lemma waitLoop_reach (k : nat) :
  forall (fuel : nat) (authReqId : jsstring)
         (startTime maxWaitMs pollIntervalMs : Z) (w : World),
    (forall j, (j < k)%nat ->
        clock (after_rounds env j authReqId pollIntervalMs w).2 - startTime
        < maxWaitMs
        /\ nonterminal
             (pollCIBAResult env authReqId
                (after_rounds env j authReqId pollIntervalMs w).2).1) ->
    waitLoop env (k + fuel) authReqId startTime maxWaitMs pollIntervalMs w
    = match waitLoop env fuel authReqId startTime maxWaitMs
              (after_rounds env k authReqId pollIntervalMs w).1
              (after_rounds env k authReqId pollIntervalMs w).2 with
      | Some (tag, polls, w') =>
          Some (tag,
                map (fun j =>
                       (pollCIBAResult env authReqId
                          (after_rounds env j authReqId pollIntervalMs w).2).1)
                  (seq 0 k) ++ polls, w')
      | None => None
      end.
Proof.
  induction k as [|k IH]; intros fuel id start maxWait p w Hreach.
  { cbn [Nat.add after_rounds fst snd seq map app].
    destruct (waitLoop env fuel id start maxWait p w) as [[[tag polls] w']|];
      reflexivity. }
  destruct (Hreach 0%nat ltac:(lia)) as [Hcond (Ha & Hd & He)].
  cbn [after_rounds snd] in Hcond, Ha, Hd, He.
  cbn [Nat.add]. rewrite waitLoop_unfold.
  replace (clock w - start <? maxWait) with true
    by (symmetry; apply Z.ltb_lt; exact Hcond).
  cbn [after_rounds seq map snd].
  destruct (pollCIBAResult env id w) as [result w1] eqn:Hpoll.
  cbn [fst snd] in *.
  rewrite !bool_decide_eq_false_2 by assumption.
  cbv zeta. set (p' := adopt_interval _ _).
  rewrite IH.
  - destruct (waitLoop env fuel id start maxWait
                (after_rounds env k id p' (setTimeout env p' w1)).1
                (after_rounds env k id p' (setTimeout env p' w1)).2)
      as [[[tag polls] w']|]; [|reflexivity].
    cbn [app]. rewrite <- seq_shift, map_map.
    assert (Hmap :
              map (fun j =>
                     (pollCIBAResult env id (after_rounds env (S j) id p w).2).1)
                (seq 0 k)
              = map (fun j =>
                       (pollCIBAResult env id
                          (after_rounds env j id p' (setTimeout env p' w1)).2).1)
                  (seq 0 k))
      by (apply map_ext; intros j; cbn [after_rounds]; rewrite Hpoll;
          reflexivity).
    rewrite Hmap. reflexivity.
  - intros j Hj. specialize (Hreach (S j) ltac:(lia)).
    cbn [after_rounds] in Hreach. rewrite Hpoll in Hreach. exact Hreach.
Qed.

(** C7. On [slow_down] a poll of a live, real request returns [pending]
    and stores the request with the status it had and a raised interval:
    a stored interval [i] other than 0 becomes [i + 5], exactly 5 more,
    while a missing interval or one of 0 counts as the default 5 and
    becomes 10.  No other poll outcome and no call of [approveRequest],
    [denyRequest] or [getPendingRequestsForUser] changes the interval of
    any stored request.  A wait adopts the raised interval unless it is 0:
    when round [k] of [waitForApproval] meets [slow_down], that round
    sleeps for the raised interval, the cadence stays at least as long in
    every later round, and the wait goes on as the loop does from there
    at the raised cadence. *)
Theorem slow_down_raises_interval :
  (forall (authReqId : jsstring) (w : World) (request : CIBARequest),
      pendingRequests w !! authReqId = Some request ->
      clock w <= expiresAt request ->
      startsWith authReqId (lit "SIMULATED-") = false ->
      oauthToken env w authReqId = Rejected (Some (lit "slow_down")) ->
      exists raised : Z,
        (forall i, interval request = Some i -> i <> 0 -> raised = i + 5)
        /\ (interval request = None \/ interval request = Some 0 ->
            raised = 10)
        /\ (pollCIBAResult env authReqId w).1 = pending
        /\ (pollCIBAResult env authReqId w).2
           = store_set authReqId (set_interval raised request)
               (sent env (oauth_token authReqId) w)
        /\ (interval <$> getRequest authReqId (pollCIBAResult env authReqId w).2)
           = Some (Some raised)
        /\ (status <$> getRequest authReqId (pollCIBAResult env authReqId w).2)
           = Some (status request))
  /\ (forall (authReqId : jsstring) (w : World),
        intervals (pollCIBAResult env authReqId w).2 <> intervals w ->
        oauthToken env w authReqId = Rejected (Some (lit "slow_down")))
  /\ (forall (authReqId : jsstring) (w : World),
        intervals (approveRequest authReqId w).2 = intervals w
        /\ intervals (denyRequest authReqId w).2 = intervals w)
  /\ (forall (uid : jsstring) (w : World),
        intervals (getPendingRequestsForUser uid w).2 = intervals w)
  /\ (forall (authReqId : jsstring) (w : World) (maxWaitMs : Z) (k : nat)
             (request : CIBARequest) (raised : Z),
        (forall j, (j < k)%nat ->
            clock (round_world env authReqId w j) - clock w < maxWaitMs
            /\ nonterminal (round_poll env authReqId w j)) ->
        clock (round_world env authReqId w k) - clock w < maxWaitMs ->
        pendingRequests (round_world env authReqId w k) !! authReqId
        = Some request ->
        clock (round_world env authReqId w k) <= expiresAt request ->
        startsWith authReqId (lit "SIMULATED-") = false ->
        oauthToken env (round_world env authReqId w k) authReqId
        = Rejected (Some (lit "slow_down")) ->
        (interval <$>
           getRequest authReqId
             (pollCIBAResult env authReqId (round_world env authReqId w k)).2)
        = Some (Some raised) ->
        raised <> 0 ->
        round_interval env authReqId w (S k) = raised * 1000
        /\ round_world env authReqId w (S k)
           = setTimeout env (raised * 1000)
               (pollCIBAResult env authReqId (round_world env authReqId w k)).2
        /\ (forall j, (k < j)%nat ->
              raised * 1000 <= round_interval env authReqId w j)
        /\ forall fuel : nat,
            waitForApproval env (k + S fuel) authReqId maxWaitMs w
            = match waitLoop env fuel authReqId (clock w) maxWaitMs
                      (raised * 1000) (round_world env authReqId w (S k)) with
              | Some (tag, polls, w') =>
                  Some (tag,
                        map (round_poll env authReqId w) (seq 0 (S k)) ++ polls,
                        w')
              | None => None
              end).
Proof.
  split; [|split; [exact poll_intervals | split; [|split]]].
  - intros id w r Hget Hlive Hreal Hslow.
    rewrite (poll_slow_down id w r Hget Hlive Hreal Hslow). cbn [fst snd].
    exists (opt_Z_or (interval r) 5 + 5).
    split; [intros i -> Hnz; cbn [opt_Z_or];
            replace (i =? 0) with false
              by (symmetry; apply Z.eqb_neq; exact Hnz);
            reflexivity|].
    split; [intros [-> | ->]; reflexivity|].
    split; [reflexivity|]. split; [reflexivity|].
    unfold getRequest. cbn [store_set pendingRequests].
    rewrite lookup_insert_eq. split; reflexivity.
  - intros id w. split; apply resolveRequest_intervals.
  - exact getPendingRequestsForUser_intervals.
  - intros id w maxWaitMs k r raised Hreach Hcond Hget Hlive Hreal Hslow
      Hraised Hnz.
    unfold round_interval, round_world, round_poll, waitForApproval in *.
    set (p0 := opt_Z_or (pendingRequests w !! id ≫= interval) 5 * 1000) in *.
    set (pk := (after_rounds env k id p0 w).1).
    set (sk := (after_rounds env k id p0 w).2) in *.
    pose proof (after_rounds_bound k id p0 w ltac:(unfold p0; lia)) as Hbound.
    fold pk sk in Hbound. rewrite Hget in Hbound.
    cbn [mbind option_bind] in Hbound.
    pose proof (poll_slow_down id sk r Hget Hlive Hreal Hslow) as Hrun.
    rewrite Hrun in Hraised. unfold getRequest in Hraised.
    cbn [snd store_set pendingRequests] in Hraised.
    rewrite lookup_insert_eq in Hraised.
    cbn [fmap option_fmap option_map set_interval interval] in Hraised.
    injection Hraised as Hraised. rewrite Hraised in Hrun.
    assert (Hlt : pk < raised * 1000) by lia.
    assert (Hround : after_rounds env (S k) id p0 w
                     = (raised * 1000,
                        setTimeout env (raised * 1000)
                          (pollCIBAResult env id sk).2)).
    { replace (S k) with (k + 1)%nat by lia. rewrite after_rounds_add.
      fold pk sk. cbn [after_rounds]. rewrite Hrun. cbn [snd].
      unfold adopt_interval. cbn [store_set pendingRequests].
      rewrite lookup_insert_eq. cbn [mbind option_bind set_interval interval].
      replace (raised =? 0) with false
        by (symmetry; apply Z.eqb_neq; exact Hnz).
      replace (pk <? raised * 1000) with true
        by (symmetry; apply Z.ltb_lt; exact Hlt).
      reflexivity. }
    rewrite Hround. cbn [fst snd].
    split; [reflexivity|]. split; [reflexivity|]. split.
    + intros j Hj. replace j with (S k + (j - S k))%nat by lia.
      rewrite after_rounds_add, Hround. cbn [fst snd]. apply after_rounds_ge.
    + intros fuel. rewrite (waitLoop_reach k (S fuel) id (clock w) maxWaitMs p0 w)
        by exact Hreach.
      fold pk sk. rewrite waitLoop_unfold.
      replace (clock sk - clock w <? maxWaitMs) with true
        by (symmetry; apply Z.ltb_lt; exact Hcond).
      rewrite Hrun.
      rewrite !bool_decide_eq_false_2 by discriminate.
      cbv zeta. unfold adopt_interval. cbn [store_set pendingRequests].
      rewrite lookup_insert_eq. cbn [mbind option_bind set_interval interval].
      replace (raised =? 0) with false
        by (symmetry; apply Z.eqb_neq; exact Hnz).
      replace (pk <? raised * 1000) with true
        by (symmetry; apply Z.ltb_lt; exact Hlt).
      cbn [negb andb snd].
      destruct (waitLoop env fuel id (clock w) maxWaitMs (raised * 1000) _)
        as [[[tag polls] w']|]; [|reflexivity].
      rewrite seq_S, map_app, <- app_assoc. cbn [map app Nat.add].
      unfold round_world. fold p0. fold sk. rewrite Hrun. reflexivity.
Qed.

End Congestion.

(** ** Response time *)

Section Invariant.

Variable env : Environment.

Lemma timestamp_inv_expired (r : CIBARequest) :
  timestamp_inv (set_status expired r).
Proof. split; simpl; [discriminate | intros [?|?]; discriminate]. Qed.

Lemma timestamp_inv_resolved (s : Status) (t : Z) (r : CIBARequest) :
  s <> pending -> timestamp_inv (set_respondedAt t (set_status s r)).
Proof. intros Hs. split; simpl; [congruence | eauto]. Qed.

Lemma timestamp_inv_interval (i : Z) (r : CIBARequest) :
  timestamp_inv r -> timestamp_inv (set_interval i r).
Proof. intros H. exact H. Qed.

Lemma store_inv_set (id : jsstring) (r : CIBARequest) (w : World) :
  store_inv w -> timestamp_inv r -> store_inv (store_set id r w).
Proof. intros Hw Hr. apply map_Forall_insert_2; assumption. Qed.

Lemma initiate_store_inv (u e o : jsstring) (d : Details) (w : World) :
  store_inv w -> store_inv (initiateCIBARequest env u e o d w).2.
Proof.
  intros Hw. unfold initiateCIBARequest.
  destruct (bcAuthorize env w u (createBindingMessage o d)); simpl;
    apply map_Forall_insert_2; try exact Hw;
    (split; simpl; [reflexivity | intros [?|?]; discriminate]).
Qed.

Lemma poll_store_inv (id : jsstring) (w : World) :
  store_inv w -> store_inv (pollCIBAResult env id w).2.
Proof.
  intros Hw. unfold pollCIBAResult.
  destruct (pendingRequests w !! id) as [r|] eqn:Hget; [|exact Hw].
  pose proof (map_Forall_lookup_1 _ _ _ _ Hw Hget) as Hr. simpl in Hr.
  repeat case_match; simpl; try exact Hw;
    apply map_Forall_insert_2; try exact Hw;
    auto using timestamp_inv_expired, timestamp_inv_resolved,
      timestamp_inv_interval.
Qed.

Lemma resolveRequest_store_inv (s : Status) (id : jsstring) (w : World) :
  s <> pending -> store_inv w -> store_inv (resolveRequest s id w).2.
Proof.
  intros Hs Hw. unfold resolveRequest.
  repeat case_match; simpl; try exact Hw.
  apply map_Forall_insert_2; [|exact Hw].
  apply timestamp_inv_resolved, Hs.
Qed.

Lemma getPendingRequestsForUser_store_inv (uid : jsstring) (w : World) :
  store_inv w -> store_inv (getPendingRequestsForUser uid w).2.
Proof.
  intros Hw. unfold store_inv, getPendingRequestsForUser. simpl.
  apply map_Forall_fmap. eapply map_Forall_impl; [exact Hw|].
  intros id r Hr. simpl. unfold expire_if_due.
  case_match; [apply timestamp_inv_expired | exact Hr].
Qed.

Lemma waitLoop_store_inv (fuel : nat) :
  forall (id : jsstring) (startTime maxWaitMs pollIntervalMs : Z) (w : World)
         out,
    store_inv w ->
    waitLoop env fuel id startTime maxWaitMs pollIntervalMs w = Some out ->
    store_inv out.2.
Proof.
  induction fuel as [|fuel IH]; intros id start maxWait p w out Hw;
    rewrite waitLoop_unfold;
    destruct (clock w - start <? maxWait); try discriminate;
    try (intros [= <-]; exact Hw).
  pose proof (poll_store_inv id w Hw) as Hw1.
  destruct (pollCIBAResult env id w) as [result w1]. simpl in Hw1.
  repeat (case_bool_decide; [intros [= <-]; exact Hw1|]).
  cbv zeta. set (p' := adopt_interval _ _).
  destruct (waitLoop env fuel id start maxWait p' (setTimeout env p' w1))
    as [[[tag polls] w']|] eqn:Hrec; [|discriminate].
  intros [= <-]. exact (IH id start maxWait p' (setTimeout env p' w1) _ Hw1 Hrec).
Qed.

Lemma run_store_inv (op : Op) (w w' : World) :
  store_inv w -> run env op w = Some w' -> store_inv w'.
Proof.
  intros Hw. destruct op; simpl.
  - intros [= <-]. apply initiate_store_inv, Hw.
  - intros [= <-]. apply poll_store_inv, Hw.
  - unfold waitForApproval.
    destruct (waitLoop _ _ _ _ _ _ _) as [out|] eqn:Hrun; [|discriminate].
    intros [= <-]. exact (waitLoop_store_inv _ _ _ _ _ _ _ Hw Hrun).
  - intros [= <-]. apply resolveRequest_store_inv; [discriminate | exact Hw].
  - intros [= <-]. apply resolveRequest_store_inv; [discriminate | exact Hw].
  - intros [= <-]. apply getPendingRequestsForUser_store_inv, Hw.
  - intros [= <-]. exact Hw.
Qed.

Lemma reachable_store_inv (w : World) : reachable env w -> store_inv w.
Proof.
  induction 1 as [t | w op w' _ IH Hrun].
  - apply map_Forall_empty.
  - exact (run_store_inv op w w' IH Hrun).
Qed.

Lemma store_set_lookup (id id' : jsstring) (r0 r' : CIBARequest) (w : World) :
  pendingRequests (store_set id' r0 w) !! id = Some r' ->
  (id' = id /\ r' = r0) \/ pendingRequests w !! id = Some r'.
Proof.
  unfold store_set. cbn [pendingRequests].
  destruct (decide (id' = id)) as [->|Hne].
  - rewrite lookup_insert_eq. intros [= <-]. left. split; reflexivity.
  - rewrite lookup_insert_ne by exact Hne. intros H. right. exact H.
Qed.

(** A poll that leaves a request [expired] leaves its response time as it
    was. *)
Lemma poll_expired_respondedAt (id id' : jsstring) (w : World)
    (r r' : CIBARequest) :
  pendingRequests w !! id = Some r ->
  pendingRequests (pollCIBAResult env id' w).2 !! id = Some r' ->
  status r' = expired ->
  respondedAt r' = respondedAt r.
Proof.
  intros Hget. unfold pollCIBAResult.
  destruct (pendingRequests w !! id') as [r0|] eqn:Hget';
    [|cbn [snd]; intros; congruence].
  assert (Hupd : forall r1 w1,
             pendingRequests w1 = pendingRequests w ->
             (status r1 = expired -> respondedAt r1 = respondedAt r0) ->
             pendingRequests (store_set id' r1 w1) !! id = Some r' ->
             status r' = expired -> respondedAt r' = respondedAt r).
  { intros r1 w1 Hw1 Hr1 Hl Hs.
    apply store_set_lookup in Hl as [[-> ->] | Hl].
    - rewrite (Hr1 Hs). congruence.
    - rewrite Hw1 in Hl. congruence. }
  assert (Hsame : forall w1,
             pendingRequests w1 = pendingRequests w ->
             pendingRequests w1 !! id = Some r' ->
             status r' = expired -> respondedAt r' = respondedAt r).
  { intros w1 Hw1 Hl _. rewrite Hw1 in Hl. congruence. }
  destruct (expiresAt r0 <? clock w); cbn [snd].
  { apply Hupd; [reflexivity | intros _; reflexivity]. }
  destruct (startsWith id' (lit "SIMULATED-")); cbn [snd].
  { apply Hsame. reflexivity. }
  destruct (oauthToken env w id') as [data | code].
  - destruct (str_truthy (data_access_token data)); cbn [snd].
    + apply Hupd; [reflexivity | discriminate].
    + apply Hsame. reflexivity.
  - destruct (is_str code "authorization_pending"); cbn [snd].
    { apply Hsame. reflexivity. }
    destruct (is_str code "slow_down"); cbn [snd].
    { apply Hupd; [reflexivity | intros _; reflexivity]. }
    destruct (is_str code "access_denied"); cbn [snd].
    { apply Hupd; [reflexivity | discriminate]. }
    destruct (is_str code "expired_token"); cbn [snd].
    { apply Hupd; [reflexivity | intros _; reflexivity]. }
    apply Hsame. reflexivity.
Qed.

Lemma list_expired_respondedAt (id uid : jsstring) (w : World)
    (r r' : CIBARequest) :
  pendingRequests w !! id = Some r ->
  pendingRequests (getPendingRequestsForUser uid w).2 !! id = Some r' ->
  respondedAt r' = respondedAt r.
Proof.
  intros Hget. unfold getPendingRequestsForUser. simpl.
  rewrite lookup_fmap, Hget. simpl. intros [= <-].
  unfold expire_if_due. case_match; reflexivity.
Qed.

(** C6 (amended). In every state the service can reach, a stored request
    that is [pending] has no response time, and one that is [approved] or
    [denied] has one: every transition into [approved] or [denied] records
    it.  A transition into [expired], by a poll or by
    [getPendingRequestsForUser], records none: the response time stays as
    it was, unset when the request expires from [pending]. *)
Theorem respondedAt_when_resolved (w : World) (id : jsstring)
    (r : CIBARequest) :
  reachable env w ->
  pendingRequests w !! id = Some r ->
  (status r = pending -> respondedAt r = None)
  /\ (status r = approved \/ status r = denied -> is_Some (respondedAt r))
  /\ (forall id' r',
        pendingRequests (pollCIBAResult env id' w).2 !! id = Some r' ->
        status r' = expired -> respondedAt r' = respondedAt r)
  /\ (forall uid r',
        pendingRequests (getPendingRequestsForUser uid w).2 !! id = Some r' ->
        respondedAt r' = respondedAt r).
Proof.
  intros Hreach Hget.
  destruct (map_Forall_lookup_1 _ _ _ _ (reachable_store_inv w Hreach) Hget)
    as [Hpending Hresolved].
  split; [exact Hpending|]. split; [exact Hresolved|]. split.
  - intros id' r'. apply poll_expired_respondedAt, Hget.
  - intros uid r'. apply list_expired_respondedAt, Hget.
Qed.

End Invariant.

(** ** Terminal states *)

(** X9. The manual override refuses a request that is not [pending]. *)
Lemma override_terminal (id : jsstring) (w : World) (r : CIBARequest) :
  pendingRequests w !! id = Some r ->
  status r <> pending ->
  approveRequest id w = (false, w) /\ denyRequest id w = (false, w).
Proof.
  intros Hget Hs. unfold approveRequest, denyRequest, resolveRequest.
  rewrite Hget, bool_decide_eq_true_2 by exact Hs. split; reflexivity.
Qed.

(** Before the deadline a poll of a simulated request reports the stored
    status and changes nothing. *)
Lemma poll_simulated_live (env : Environment) (id : jsstring) (w : World)
    (r : CIBARequest) :
  pendingRequests w !! id = Some r ->
  clock w <= expiresAt r ->
  startsWith id (lit "SIMULATED-") = true ->
  pollCIBAResult env id w = (status r, w).
Proof.
  intros Hget Hlive Hsim. unfold pollCIBAResult. rewrite Hget, Hsim.
  destruct (expiresAt r <? clock w) eqn:Hdue; [apply Z.ltb_lt in Hdue; lia|].
  case_bool_decide as Hp; [rewrite Hp|]; reflexivity.
Qed.

(** C1. A request that was approved does not stay approved: with the
    authority unreachable a simulated request is created and approved by
    hand ([approveRequest] returns [true], the stored status is
    [approved]); a poll made 300,001 ms later returns [expired] and
    overwrites the stored status with [expired].  The deadline check of
    [pollCIBAResult] does not look at the status, unlike the one of
    [getPendingRequestsForUser]. *)
Theorem poll_overwrites_approved :
  let id := authReqId (demo_initiated offline).1 in
  let w1 := (demo_initiated offline).2 in
  let w2 := elapse 300001 (approveRequest id w1).2 in
  (approveRequest id w1).1 = true
  /\ (status <$> getRequest id w2) = Some approved
  /\ (pollCIBAResult offline id w2).1 = expired
  /\ (status <$> getRequest id (pollCIBAResult offline id w2).2) = Some expired
  /\ (status <$> getRequest id (getPendingRequestsForUser (lit "auth0|u1") w2).2)
     = Some approved.
Proof. vm_compute. repeat split; reflexivity. Qed.

(** The same on a real request before its deadline: denied by hand, then
    approved by a poll when the authority grants a token. *)
Example poll_overwrites_denied :
  let w1 := (demo_initiated granting).2 in
  let w2 := (denyRequest (lit "req-1") w1).2 in
  (denyRequest (lit "req-1") w1).1 = true
  /\ (status <$> getRequest (lit "req-1") w2) = Some denied
  /\ (pollCIBAResult granting (lit "req-1") w2).1 = approved
  /\ (status <$> getRequest (lit "req-1") (pollCIBAResult granting (lit "req-1") w2).2)
     = Some approved.
Proof. vm_compute. repeat split; reflexivity. Qed.

(** ** Concrete runs *)

Lemma unknown_request_witness :
  pendingRequests demo_start !! lit "req-404" = None
  /\ pollCIBAResult offline (lit "req-404") demo_start = (expired, demo_start)
  /\ approveRequest (lit "req-404") demo_start = (false, demo_start)
  /\ denyRequest (lit "req-404") demo_start = (false, demo_start).
Proof.
  split; [reflexivity|].
  apply (unknown_request offline (lit "req-404") demo_start). reflexivity.
Defined.

Lemma poll_after_deadline_witness :
  pendingRequests (elapse 300081 (demo_initiated granting).2) !! lit "req-1"
  = Some (demo_initiated granting).1
  /\ expiresAt (demo_initiated granting).1
     < clock (elapse 300081 (demo_initiated granting).2)
  /\ (pollCIBAResult granting (lit "req-1")
        (elapse 300081 (demo_initiated granting).2)).1 = expired
  /\ network (pollCIBAResult granting (lit "req-1")
                (elapse 300081 (demo_initiated granting).2)).2
     = network (demo_initiated granting).2.
Proof.
  split; [reflexivity|]. split; [reflexivity|].
  pose proof (poll_after_deadline granting (lit "req-1")
                (elapse 300081 (demo_initiated granting).2)
                (demo_initiated granting).1 eq_refl eq_refl) as H.
  destruct (pollCIBAResult granting (lit "req-1")
              (elapse 300081 (demo_initiated granting).2)) as [result w'].
  destruct H as (Hres & _ & _ & Hnet & _).
  split; [exact Hres | exact Hnet].
Defined.

Lemma waitForApproval_no_budget_witness :
  0 <= 0
  /\ waitForApproval offline 7 (authReqId (demo_initiated offline).1) 0
       (approveRequest (authReqId (demo_initiated offline).1)
          (demo_initiated offline).2).2
     = Some (timeout, [],
             (approveRequest (authReqId (demo_initiated offline).1)
                (demo_initiated offline).2).2).
Proof.
  split; [lia|].
  apply (waitForApproval_no_budget offline 7
           (authReqId (demo_initiated offline).1) 0). lia.
Defined.

Lemma initiate_fallback_witness :
  bcAuthorize offline demo_start (lit "auth0|u1")
    (createBindingMessage (lit "Transfer $75,000") demo_details)
  = Rejected None
  /\ status (demo_initiated offline).1 = pending
  /\ startsWith (authReqId (demo_initiated offline).1) (lit "SIMULATED-") = true
  /\ expiresAt (demo_initiated offline).1
     = requestedAt (demo_initiated offline).1 + 300 * 1000
  /\ getRequest (authReqId (demo_initiated offline).1) (demo_initiated offline).2
     = Some (demo_initiated offline).1.
Proof.
  split; [reflexivity|].
  pose proof (initiate_fallback offline (lit "auth0|u1") (lit "u1@demo.local")
                (lit "Transfer $75,000") demo_details demo_start None eq_refl)
    as H.
  unfold demo_initiated.
  destruct (initiateCIBARequest offline (lit "auth0|u1") (lit "u1@demo.local")
              (lit "Transfer $75,000") demo_details demo_start)
    as [request w'].
  destruct H as (_ & Hsim & Hst & _ & Hexp & _ & _ & _ & _ & _ & _ & _ & Hget & _).
  repeat split; assumption.
Defined.

Lemma slow_down_raises_interval_witness :
  let id := lit "req-1" in
  let w := (demo_initiated congested).2 in
  (interval <$> getRequest id w) = Some (Some 5)
  /\ (pollCIBAResult congested id w).1 = pending
  /\ (interval <$> getRequest id (pollCIBAResult congested id w).2)
     = Some (Some 10)
  /\ round_interval congested id w 1 = 10000
  /\ round_world congested id w 1
     = setTimeout congested 10000 (pollCIBAResult congested id w).2.
Proof.
  intros id w.
  assert (Hlive : clock w <= expiresAt (demo_initiated congested).1)
    by (vm_compute; discriminate).
  destruct (slow_down_raises_interval congested)
    as (Hpoll & _ & _ & _ & Hwait).
  destruct (Hpoll id w (demo_initiated congested).1 eq_refl Hlive eq_refl eq_refl)
    as (raised & Hexact & _ & Hres & _ & Hint & _).
  rewrite (Hexact 5 eq_refl ltac:(lia)) in Hint.
  destruct (Hwait id w defaultMaxWaitMs 0%nat (demo_initiated congested).1 10
              ltac:(intros j Hj; lia) ltac:(vm_compute; reflexivity)
              eq_refl Hlive eq_refl eq_refl Hint ltac:(lia))
    as (Hcadence & Hsleep & _).
  split; [reflexivity|]. split; [exact Hres|]. split; [exact Hint|].
  split; [exact Hcadence | exact Hsleep].
Defined.

(** C7, as stated, fails where the stored interval is 0: an authority
    that advertises -5 seconds has its request stored with that interval,
    a first [slow_down] raises it to 0, a state the service reaches, and a
    second [slow_down] raises it from 0 to 10, not to 5.  Nor does a wait
    adopt the interval raised to 0: its cadence stays at -5000 ms. *)
Lemma slow_down_from_zero :
  let id := lit "req-1" in
  let w0 := (demo_initiated backwards).2 in
  let w1 := (pollCIBAResult backwards id w0).2 in
  let w2 := (pollCIBAResult backwards id w1).2 in
  reachable backwards w1
  /\ (interval <$> getRequest id w0) = Some (Some (-5))
  /\ (interval <$> getRequest id w1) = Some (Some 0)
  /\ oauthToken backwards w1 id = Rejected (Some (lit "slow_down"))
  /\ (pollCIBAResult backwards id w1).1 = pending
  /\ (interval <$> getRequest id w2) = Some (Some 10)
  /\ round_interval backwards id w0 0 = -5000
  /\ round_interval backwards id w0 1 = -5000
  /\ ~ slow_down_adds_five backwards.
Proof.
  intros id w0 w1 w2.
  assert (Hreach : reachable backwards w1).
  { eapply reachable_step with (op := Poll id); [|reflexivity].
    eapply reachable_step
      with (op := Initiate (lit "auth0|u1") (lit "u1@demo.local")
                    (lit "Transfer $75,000") demo_details); [|reflexivity].
    apply (reachable_start backwards 1700000000000). }
  split; [exact Hreach|].
  do 7 (split; [vm_compute; reflexivity|]).
  intros Hclaim.
  specialize (Hclaim w1 id
                (set_interval 0 (demo_initiated backwards).1) 0 Hreach
                eq_refl eq_refl ltac:(vm_compute; discriminate)
                eq_refl eq_refl).
  vm_compute in Hclaim. discriminate Hclaim.
Qed.

Lemma demo_approved_reachable :
  reachable offline
    (approveRequest (authReqId (demo_initiated offline).1)
       (demo_initiated offline).2).2.
Proof.
  eapply reachable_step with (op := Approve (authReqId (demo_initiated offline).1)).
  - eapply reachable_step
      with (op := Initiate (lit "auth0|u1") (lit "u1@demo.local")
                    (lit "Transfer $75,000") demo_details).
    + apply (reachable_start offline 1700000000000).
    + reflexivity.
  - reflexivity.
Defined.

Lemma respondedAt_when_resolved_witness :
  reachable offline
    (approveRequest (authReqId (demo_initiated offline).1)
       (demo_initiated offline).2).2
  /\ is_Some
       (respondedAt
          (set_respondedAt 1700000000000
             (set_status approved (demo_initiated offline).1))).
Proof.
  split; [exact demo_approved_reachable|].
  apply (respondedAt_when_resolved offline
           (approveRequest (authReqId (demo_initiated offline).1)
              (demo_initiated offline).2).2
           (authReqId (demo_initiated offline).1)
           (set_respondedAt 1700000000000
              (set_status approved (demo_initiated offline).1))
           demo_approved_reachable eq_refl).
  left. reflexivity.
Defined.

(** C6, as stated, fails: after a simulated request is created and polled
    past its deadline, the state is reachable, the stored request is
    [expired] and has no response time; so the equivalence between "has a
    response time" and "is not pending" does not hold. *)
Lemma expired_without_respondedAt :
  let id := authReqId (demo_initiated offline).1 in
  let w := (pollCIBAResult offline id
              (elapse 300001 (demo_initiated offline).2)).2 in
  let r := set_status expired (demo_initiated offline).1 in
  reachable offline w
  /\ pendingRequests w !! id = Some r
  /\ status r = expired
  /\ respondedAt r = None
  /\ ~ respondedAt_iff_resolved offline.
Proof.
  intros id w r.
  assert (Hreach : reachable offline w).
  { eapply reachable_step with (op := Poll id); [|reflexivity].
    eapply reachable_step with (op := Elapse 300001); [|reflexivity].
    eapply reachable_step
      with (op := Initiate (lit "auth0|u1") (lit "u1@demo.local")
                    (lit "Transfer $75,000") demo_details); [|reflexivity].
    apply (reachable_start offline 1700000000000). }
  assert (Hget : pendingRequests w !! id = Some r) by reflexivity.
  split; [exact Hreach|]. split; [exact Hget|].
  split; [reflexivity|]. split; [reflexivity|].
  intros Hclaim.
  destruct (Hclaim w id r Hreach Hget) as [_ Hset].
  destruct Hset as [t Ht]; [discriminate | discriminate Ht].
Qed.

(** A simulated request that nobody resolves: three polls, five seconds
    apart, then [timeout] once the budget of twelve seconds is used up. *)
Example wait_times_out :
  waitForApproval offline 3 (authReqId (demo_initiated offline).1) 12000
    (demo_initiated offline).2
  = Some (timeout, [pending; pending; pending],
          elapse 15000 (demo_initiated offline).2).
Proof. vm_compute. reflexivity. Qed.

(** Two congestion signals raise the interval from 5 to 10 and to 15
    seconds; the wait still ends with [approved]. *)
Example wait_through_congestion :
  (fun out => (out.1, interval <$> getRequest (lit "req-1") out.2,
               clock out.2 - clock (demo_initiated scripted).2))
  <$> waitForApproval scripted 10 (lit "req-1") defaultMaxWaitMs
        (demo_initiated scripted).2
  = Some (approved, [pending; pending; pending; approved], Some (Some 15),
          100 + 10002 + 100 + 15002 + 100 + 15002 + 100).
Proof. vm_compute. reflexivity. Qed.

(** * Further properties of the service *)

(** ** Initiation accepted by the authority *)

(** X1. When the authority accepts the request, the stored request carries the
    authority's id, is [pending] with no response time, lives for the
    advertised lifetime and polls at the advertised interval; a lifetime or
    an interval that is missing or 0 is replaced by 300 and 5 seconds.
    Exactly one call is logged and no other id is touched. *)
Theorem initiate_accepted (env : Environment) (uid email op : jsstring)
    (d : Details) (w : World) (data : BcData) :
  bcAuthorize env w uid (createBindingMessage op d) = Resolved data ->
  let (request, w') := initiateCIBARequest env uid email op d w in
  authReqId request = data_auth_req_id data
  /\ status request = pending
  /\ respondedAt request = None
  /\ requestedAt request = clock w'
  /\ expiresAt request
     = requestedAt request + opt_Z_or (data_expires_in data) 300 * 1000
  /\ interval request = Some (opt_Z_or (data_interval data) 5)
  /\ (data_expires_in data = None \/ data_expires_in data = Some 0 ->
      expiresAt request = requestedAt request + 300000)
  /\ (data_interval data = None \/ data_interval data = Some 0 ->
      interval request = Some 5)
  /\ bindingMessage request = Some (createBindingMessage op d)
  /\ getRequest (authReqId request) w' = Some request
  /\ network w' = bc_authorize uid (createBindingMessage op d) :: network w
  /\ forall id, id <> authReqId request -> getRequest id w' = getRequest id w.
Proof.
  intros Hok. unfold initiateCIBARequest. rewrite Hok.
  set (w1 := sent env _ w).
  set (request := mkRequest _ _ _ _ _ _ _ _ _ _ _).
  repeat split; try reflexivity.
  - intros [H | H]; simpl; rewrite H; reflexivity.
  - intros [H | H]; simpl; rewrite H; reflexivity.
  - unfold getRequest. apply lookup_insert_eq.
  - intros id Hid. unfold getRequest. simpl.
    apply lookup_insert_ne. intros Heq. apply Hid. symmetry. exact Heq.
Qed.

Lemma initiate_accepted_witness :
  bcAuthorize flaky demo_start (lit "auth0|u1")
    (createBindingMessage (lit "Transfer $75,000") demo_details)
  = Resolved (mkBcData (lit "req-1") (Some 0) None)
  /\ expiresAt (demo_initiated flaky).1
     = requestedAt (demo_initiated flaky).1 + 300000
  /\ interval (demo_initiated flaky).1 = Some 5.
Proof.
  split; [reflexivity|].
  pose proof (initiate_accepted flaky (lit "auth0|u1") (lit "u1@demo.local")
                (lit "Transfer $75,000") demo_details demo_start
                (mkBcData (lit "req-1") (Some 0) None) eq_refl) as H.
  unfold demo_initiated.
  destruct (initiateCIBARequest flaky (lit "auth0|u1") (lit "u1@demo.local")
              (lit "Transfer $75,000") demo_details demo_start)
    as [request w'].
  destruct H as (_ & _ & _ & _ & _ & _ & Hexp & Hint & _).
  split; [apply Hexp; right; reflexivity | apply Hint; left; reflexivity].
Defined.

(** ** Outcomes of a poll *)

Section PollOutcomes.

Variable env : Environment.

(** The branches of [pollCIBAResult], one by one. *)
Lemma poll_cases (id : jsstring) (w : World) :
  (pendingRequests w !! id = None /\ pollCIBAResult env id w = (expired, w))
  \/ exists r,
      pendingRequests w !! id = Some r
      /\ ((expiresAt r < clock w
           /\ pollCIBAResult env id w
              = (expired, store_set id (set_status expired r) w))
          \/ (clock w <= expiresAt r
              /\ startsWith id (lit "SIMULATED-") = true
              /\ pollCIBAResult env id w = (status r, w))
          \/ (clock w <= expiresAt r
              /\ startsWith id (lit "SIMULATED-") = false
              /\ (inconclusive (oauthToken env w id) = true
                  /\ pollCIBAResult env id w
                     = (pending, sent env (oauth_token id) w)
                  \/ (exists r',
                      pollCIBAResult env id w
                      = (status r', store_set id r' (sent env (oauth_token id) w))
                      /\ terminal (status r')
                      /\ (r' = set_status expired r
                          \/ (status r' <> expired
                              /\ r' = set_respondedAt
                                        (clock (sent env (oauth_token id) w))
                                        (set_status (status r') r))))
                  \/ (oauthToken env w id = Rejected (Some (lit "slow_down"))
                      /\ pollCIBAResult env id w
                         = (pending,
                            store_set id
                              (set_interval (opt_Z_or (interval r) 5 + 5) r)
                              (sent env (oauth_token id) w)))))).
Proof.
  unfold pollCIBAResult.
  destruct (pendingRequests w !! id) as [r|] eqn:Hget; [right | left; auto].
  exists r. split; [reflexivity|].
  destruct (expiresAt r <? clock w) eqn:Hdue.
  { left. apply Z.ltb_lt in Hdue. auto. }
  apply Z.ltb_ge in Hdue. right.
  destruct (startsWith id (lit "SIMULATED-")) eqn:Hsim.
  { left. repeat split; try assumption.
    case_bool_decide as Hp; [rewrite Hp|]; reflexivity. }
  right. repeat split; try assumption.
  unfold inconclusive.
  destruct (oauthToken env w id) as [data | code].
  - destruct (str_truthy (data_access_token data)).
    + right. left.
      exists (set_respondedAt (clock (sent env (oauth_token id) w))
                (set_status approved r)).
      split; [reflexivity|].
      split; [left; reflexivity|]. right. split; [discriminate | reflexivity].
    + left. auto.
  - destruct (is_str code "authorization_pending") eqn:Hpend.
    { left. split; [|reflexivity].
      apply bool_decide_eq_true in Hpend. subst code. reflexivity. }
    destruct (is_str code "slow_down") eqn:Hslow.
    { right. right. apply bool_decide_eq_true in Hslow. subst code. auto. }
    destruct (is_str code "access_denied") eqn:Hden.
    { right. left.
      exists (set_respondedAt (clock (sent env (oauth_token id) w))
                (set_status denied r)).
      split; [reflexivity|].
      split; [right; left; reflexivity|]. right.
      split; [discriminate | reflexivity]. }
    destruct (is_str code "expired_token") eqn:Hexp.
    { right. left. exists (set_status expired r). split; [reflexivity|].
      split; [right; right; reflexivity|]. left. reflexivity. }
    left. auto.
Qed.

Lemma poll_unknown (id : jsstring) (w : World) :
  pendingRequests w !! id = None -> pollCIBAResult env id w = (expired, w).
Proof. intros Hnone. unfold pollCIBAResult. rewrite Hnone. reflexivity. Qed.

Lemma poll_terminal_stored (id : jsstring) (w : World) (r : CIBARequest) :
  pendingRequests w !! id = Some r ->
  terminal (pollCIBAResult env id w).1 ->
  exists r',
    getRequest id (pollCIBAResult env id w).2 = Some r'
    /\ status r' = (pollCIBAResult env id w).1
    /\ same_request r r'.
Proof.
  intros Hget Hterm. unfold getRequest.
  destruct (poll_cases id w) as [[Hnone _] | (r0 & Hget0 & Hcase)];
    [congruence|].
  assert (r0 = r) as -> by congruence.
  destruct Hcase as [(_ & Hrun) | [(_ & _ & Hrun) | (_ & _ & Hreal)]].
  - rewrite Hrun. simpl. rewrite lookup_insert_eq.
    eexists. split; [reflexivity|]. split; [reflexivity|].
    repeat split.
  - rewrite Hrun. simpl. exists r. split; [exact Hget|].
    split; [reflexivity|]. repeat split.
  - destruct Hreal as [(_ & Hrun) | [(r' & Hrun & _ & Hr') | (_ & Hrun)]].
    + rewrite Hrun in Hterm. simpl in Hterm.
      destruct Hterm as [? | [? | ?]]; discriminate.
    + rewrite Hrun. simpl. rewrite lookup_insert_eq.
      exists r'. split; [reflexivity|]. split; [reflexivity|].
      destruct Hr' as [-> | [_ ->]]; repeat split.
    + rewrite Hrun in Hterm. simpl in Hterm.
      destruct Hterm as [? | [? | ?]]; discriminate.
Qed.

(** X2. A terminal result of a poll is what the map holds afterwards: when a
    poll of a stored request returns [approved], [denied] or [expired], the
    stored request has that status, and is otherwise the request that was
    asked for. *)
Theorem poll_terminal_result_stored (id : jsstring) (w : World)
    (r : CIBARequest) :
  pendingRequests w !! id = Some r ->
  terminal (pollCIBAResult env id w).1 ->
  exists r',
    getRequest id (pollCIBAResult env id w).2 = Some r'
    /\ status r' = (pollCIBAResult env id w).1
    /\ same_request r r'.
Proof. apply poll_terminal_stored. Qed.

(** X3. A reply that is neither a token nor one of the three signals the code
    knows (a response without token, [authorization_pending], an unknown
    error code, a network error) is taken as [pending]: the poll logs its
    call and leaves the map as it was. *)
Theorem poll_inconclusive (id : jsstring) (w : World) (r : CIBARequest) :
  pendingRequests w !! id = Some r ->
  clock w <= expiresAt r ->
  startsWith id (lit "SIMULATED-") = false ->
  inconclusive (oauthToken env w id) = true ->
  pollCIBAResult env id w = (pending, sent env (oauth_token id) w)
  /\ pendingRequests (pollCIBAResult env id w).2 = pendingRequests w
  /\ network (pollCIBAResult env id w).2 = oauth_token id :: network w.
Proof.
  intros Hget Hlive Hreal Hinc.
  assert (Hrun : pollCIBAResult env id w = (pending, sent env (oauth_token id) w)).
  { unfold pollCIBAResult. rewrite Hget, Hreal.
    destruct (expiresAt r <? clock w) eqn:Hdue;
      [apply Z.ltb_lt in Hdue; lia|].
    unfold inconclusive in Hinc.
    destruct (oauthToken env w id) as [data | code].
    - apply negb_true_iff in Hinc. rewrite Hinc. reflexivity.
    - apply andb_true_iff in Hinc as [Hinc Hexp].
      apply andb_true_iff in Hinc as [Hslow Hden].
      apply negb_true_iff in Hslow, Hden, Hexp.
      rewrite Hslow, Hden, Hexp.
      destruct (is_str code "authorization_pending"); reflexivity. }
  rewrite Hrun. auto.
Qed.

Lemma poll_other (id id' : jsstring) (w : World) :
  id' <> id ->
  getRequest id' (pollCIBAResult env id w).2 = getRequest id' w.
Proof.
  intros Hne. unfold getRequest.
  destruct (poll_cases id w) as [[_ Hrun] | (r & _ & Hcase)];
    [rewrite Hrun; reflexivity|].
  destruct Hcase as [(_ & Hrun) | [(_ & _ & Hrun) | (_ & _ & Hreal)]].
  - rewrite Hrun. simpl. apply lookup_insert_ne. congruence.
  - rewrite Hrun. reflexivity.
  - destruct Hreal as [(_ & Hrun) | [(r' & Hrun & _) | (_ & Hrun)]];
      rewrite Hrun; simpl; try reflexivity;
      apply lookup_insert_ne; congruence.
Qed.

Lemma resolveRequest_other (s : Status) (id id' : jsstring) (w : World) :
  id' <> id ->
  getRequest id' (resolveRequest s id w).2 = getRequest id' w.
Proof.
  intros Hne. unfold getRequest, resolveRequest.
  destruct (pendingRequests w !! id) as [r|]; [|reflexivity].
  case_bool_decide; [reflexivity|]. simpl.
  apply lookup_insert_ne. congruence.
Qed.

Lemma waitLoop_other (id id' : jsstring) (fuel : nat) :
  id' <> id ->
  forall (startTime maxWaitMs pollIntervalMs : Z) (w : World) out,
    waitLoop env fuel id startTime maxWaitMs pollIntervalMs w = Some out ->
    getRequest id' out.2 = getRequest id' w.
Proof.
  intros Hne. induction fuel as [|fuel IH]; intros start maxWaitMs p w out;
    rewrite waitLoop_unfold;
    destruct (clock w - start <? maxWaitMs); try discriminate;
    try (intros [= <-]; reflexivity).
  pose proof (poll_other id id' w Hne) as Hpoll.
  destruct (pollCIBAResult env id w) as [result w1]. simpl in Hpoll.
  repeat (case_bool_decide; [intros [= <-]; exact Hpoll|]).
  cbv zeta. set (p' := adopt_interval _ _).
  destruct (waitLoop env fuel id start maxWaitMs p' (setTimeout env p' w1))
    as [[[tag polls] w']|] eqn:Hrec; [|discriminate].
  intros [= <-]. rewrite <- Hpoll.
  exact (IH start maxWaitMs p' (setTimeout env p' w1) _ Hrec).
Qed.

(** X4. A poll, a manual resolution and a wait touch no request but the one
    they name. *)
Theorem other_requests_untouched (id id' : jsstring) (w : World) :
  id' <> id ->
  getRequest id' (pollCIBAResult env id w).2 = getRequest id' w
  /\ getRequest id' (approveRequest id w).2 = getRequest id' w
  /\ getRequest id' (denyRequest id w).2 = getRequest id' w
  /\ forall fuel maxWaitMs out,
      waitForApproval env fuel id maxWaitMs w = Some out ->
      getRequest id' out.2 = getRequest id' w.
Proof.
  intros Hne.
  split; [apply poll_other, Hne|].
  split; [apply resolveRequest_other, Hne|].
  split; [apply resolveRequest_other, Hne|].
  intros fuel maxWaitMs out. unfold waitForApproval.
  apply waitLoop_other, Hne.
Qed.

End PollOutcomes.

(** ** What calls keep of a stored request *)

Section Keeping.

Variable env : Environment.

Lemma carries_on_refl (r : CIBARequest) : carries_on r r.
Proof. repeat split; auto. Qed.

Lemma carries_on_trans (r1 r2 r3 : CIBARequest) :
  carries_on r1 r2 -> carries_on r2 r3 -> carries_on r1 r3.
Proof.
  intros (Hs12 & Hp12 & Ht12) (Hs23 & Hp23 & Ht23).
  split; [|split; auto].
  destruct Hs12 as (? & ? & ? & ? & ? & ? & ? & ?).
  destruct Hs23 as (? & ? & ? & ? & ? & ? & ? & ?).
  repeat split; congruence.
Qed.

Lemma entry_carries_on_refl (o : option CIBARequest) : entry_carries_on o o.
Proof. destruct o; simpl; [apply carries_on_refl | exact I]. Qed.

Lemma entry_carries_on_trans (o1 o2 o3 : option CIBARequest) :
  entry_carries_on o1 o2 -> entry_carries_on o2 o3 -> entry_carries_on o1 o3.
Proof.
  destruct o1, o2, o3; simpl; try tauto. apply carries_on_trans.
Qed.

Lemma carries_on_expired (r : CIBARequest) : carries_on r (set_status expired r).
Proof. repeat split; simpl; discriminate. Qed.

Lemma carries_on_resolved (s : Status) (t : Z) (r : CIBARequest) :
  s <> pending -> s <> timeout ->
  carries_on r (set_respondedAt t (set_status s r)).
Proof. intros Hp Ht. repeat split; simpl; auto. Qed.

Lemma carries_on_interval (i : Z) (r : CIBARequest) :
  carries_on r (set_interval i r).
Proof. repeat split; simpl; auto. Qed.

Lemma poll_entry (id id' : jsstring) (w : World) :
  entry_carries_on (pendingRequests w !! id')
    (pendingRequests (pollCIBAResult env id w).2 !! id').
Proof.
  destruct (decide (id' = id)) as [->|Hne].
  2: { pose proof (poll_other env id id' w Hne) as H. unfold getRequest in H.
       rewrite H. apply entry_carries_on_refl. }
  destruct (poll_cases env id w) as [[_ Hrun] | (r & Hget & Hcase)];
    [rewrite Hrun; apply entry_carries_on_refl|].
  rewrite Hget.
  destruct Hcase as [(_ & Hrun) | [(_ & _ & Hrun) | (_ & _ & Hreal)]].
  - rewrite Hrun. simpl. rewrite lookup_insert_eq. apply carries_on_expired.
  - rewrite Hrun. simpl. rewrite Hget. apply carries_on_refl.
  - destruct Hreal as [(_ & Hrun) | [(r' & Hrun & Hterm & Hr') | (_ & Hrun)]];
      rewrite Hrun; simpl.
    + rewrite Hget. apply carries_on_refl.
    + rewrite lookup_insert_eq.
      destruct Hr' as [-> | [Hne Hr']]; [apply carries_on_expired|].
      rewrite Hr'. apply carries_on_resolved;
        destruct Hterm as [H | [H | H]]; rewrite H; discriminate.
    + rewrite lookup_insert_eq. apply carries_on_interval.
Qed.

Lemma resolveRequest_entry (s : Status) (id id' : jsstring) (w : World) :
  s <> pending -> s <> timeout ->
  entry_carries_on (pendingRequests w !! id')
    (pendingRequests (resolveRequest s id w).2 !! id').
Proof.
  intros Hp Ht.
  destruct (decide (id' = id)) as [->|Hne].
  2: { pose proof (resolveRequest_other s id id' w Hne) as H.
       unfold getRequest in H. rewrite H. apply entry_carries_on_refl. }
  unfold resolveRequest.
  destruct (pendingRequests w !! id) as [r|] eqn:Hget; simpl;
    [|rewrite Hget; exact I].
  case_bool_decide; simpl.
  - rewrite Hget. apply carries_on_refl.
  - rewrite lookup_insert_eq. apply carries_on_resolved; assumption.
Qed.

Lemma getPendingRequestsForUser_entry (uid id' : jsstring) (w : World) :
  entry_carries_on (pendingRequests w !! id')
    (pendingRequests (getPendingRequestsForUser uid w).2 !! id').
Proof.
  unfold getPendingRequestsForUser. simpl. rewrite lookup_fmap.
  destruct (pendingRequests w !! id') as [r|]; simpl; [|exact I].
  unfold expire_if_due. case_match;
    [apply carries_on_expired | apply carries_on_refl].
Qed.

Lemma waitLoop_entry (id id' : jsstring) (fuel : nat) :
  forall (startTime maxWaitMs pollIntervalMs : Z) (w : World) out,
    waitLoop env fuel id startTime maxWaitMs pollIntervalMs w = Some out ->
    entry_carries_on (pendingRequests w !! id') (pendingRequests out.2 !! id').
Proof.
  induction fuel as [|fuel IH]; intros start maxWaitMs p w out;
    rewrite waitLoop_unfold;
    destruct (clock w - start <? maxWaitMs); try discriminate;
    try (intros [= <-]; apply entry_carries_on_refl).
  pose proof (poll_entry id id' w) as Hpoll.
  destruct (pollCIBAResult env id w) as [result w1]. simpl in Hpoll.
  repeat (case_bool_decide; [intros [= <-]; exact Hpoll|]).
  cbv zeta. set (p' := adopt_interval _ _).
  destruct (waitLoop env fuel id start maxWaitMs p' (setTimeout env p' w1))
    as [[[tag polls] w']|] eqn:Hrec; [|discriminate].
  intros [= <-]. eapply entry_carries_on_trans; [exact Hpoll|].
  exact (IH start maxWaitMs p' (setTimeout env p' w1) _ Hrec).
Qed.

Lemma run_entry (op : Op) (w w' : World) (id : jsstring) :
  is_initiate op = false ->
  run env op w = Some w' ->
  entry_carries_on (pendingRequests w !! id) (pendingRequests w' !! id).
Proof.
  destruct op; simpl; try discriminate; intros _.
  - intros [= <-]. apply poll_entry.
  - unfold waitForApproval.
    destruct (waitLoop _ _ _ _ _ _ _) as [out|] eqn:Hrun; [|discriminate].
    intros [= <-]. exact (waitLoop_entry _ _ _ _ _ _ _ _ Hrun).
  - intros [= <-]. apply resolveRequest_entry; discriminate.
  - intros [= <-]. apply resolveRequest_entry; discriminate.
  - intros [= <-]. apply getPendingRequestsForUser_entry.
  - intros [= <-]. apply entry_carries_on_refl.
Qed.

(** X5. Polling, waiting, approving, denying, listing and the passing of time
    neither add nor remove a request, and a request they find is afterwards
    the same request (id, user, operation, details, creation time,
    deadline and binding message unchanged); if it was no longer [pending]
    it is not [pending] afterwards. *)
Theorem request_carried_on (op : Op) (w w' : World) (id : jsstring) :
  is_initiate op = false ->
  run env op w = Some w' ->
  (getRequest id w = None -> getRequest id w' = None)
  /\ forall r,
      getRequest id w = Some r ->
      exists r',
        getRequest id w' = Some r'
        /\ same_request r r'
        /\ (status r <> pending -> status r' <> pending).
Proof.
  intros Hop Hrun. pose proof (run_entry op w w' id Hop Hrun) as H.
  unfold getRequest. unfold entry_carries_on in H.
  destruct (pendingRequests w !! id) as [r|],
           (pendingRequests w' !! id) as [r'|]; try contradiction.
  - split; [discriminate|]. intros r0 [= <-]. exists r'.
    destruct H as (Hs & Hp & _). auto.
  - split; [reflexivity | discriminate].
Qed.

(** X6. No call removes a request: the map only grows. *)
Theorem requests_never_removed (op : Op) (w w' : World) (id : jsstring) :
  run env op w = Some w' ->
  is_Some (getRequest id w) ->
  is_Some (getRequest id w').
Proof.
  intros Hrun [r Hget]. unfold getRequest in *.
  destruct (is_initiate op) eqn:Hop.
  - destruct op; try discriminate. simpl in Hrun. injection Hrun as <-.
    unfold initiateCIBARequest.
    destruct (bcAuthorize env w _ _); cbn [snd store_set pendingRequests];
      rewrite lookup_insert; case_decide; eauto.
  - pose proof (run_entry op w w' id Hop Hrun) as H.
    rewrite Hget in H. unfold entry_carries_on in H.
    destruct (pendingRequests w' !! id); [eauto | contradiction].
Qed.

Lemma run_store_keyed (op : Op) (w w' : World) :
  store_keyed w -> run env op w = Some w' -> store_keyed w'.
Proof.
  intros Hw Hrun.
  destruct (is_initiate op) eqn:Hop.
  - destruct op; try discriminate. simpl in Hrun. injection Hrun as <-.
    unfold initiateCIBARequest.
    destruct (bcAuthorize env w _ _); cbn [snd store_set pendingRequests];
      (apply map_Forall_insert_2; [split; [reflexivity | discriminate] | exact Hw]).
  - intros id r' Hget'.
    pose proof (run_entry op w w' id Hop Hrun) as H.
    rewrite Hget' in H. unfold entry_carries_on in H.
    destruct (pendingRequests w !! id) as [r|] eqn:Hget; [|contradiction].
    destruct (Hw id r Hget) as [Hid Hnt].
    destruct H as ((Hauth & _) & _ & Ht). split; [congruence | auto].
Qed.

(** X7. In every state the service can reach, a request is stored under its
    own [authReqId], and no stored status is [timeout]. *)
Theorem stored_under_own_id (w : World) (id : jsstring) (r : CIBARequest) :
  reachable env w ->
  getRequest id w = Some r ->
  authReqId r = id /\ status r <> timeout.
Proof.
  intros Hreach Hget.
  assert (Hkeyed : store_keyed w).
  { clear Hget. induction Hreach as [t | w op w' _ IH Hrun].
    - apply map_Forall_empty.
    - exact (run_store_keyed op w w' IH Hrun). }
  exact (Hkeyed id r Hget).
Qed.

End Keeping.

(** ** Manual resolution and waiting *)

Section Resolution.

Variable env : Environment.

Lemma resolveRequest_pending (s : Status) (id : jsstring) (w : World)
    (r : CIBARequest) :
  pendingRequests w !! id = Some r ->
  status r = pending ->
  resolveRequest s id w
  = (true, store_set id (set_respondedAt (clock w) (set_status s r)) w).
Proof.
  intros Hget Hp. unfold resolveRequest. rewrite Hget.
  rewrite bool_decide_eq_false_2 by (rewrite Hp; auto). reflexivity.
Qed.

(** X8. The first manual resolution of a pending request wins: it returns
    [true], records the status and the time, sends nothing and takes no
    time; any later [approveRequest] or [denyRequest] returns [false] and
    changes nothing. *)
Theorem first_resolution_wins (id : jsstring) (w : World) (r : CIBARequest) :
  pendingRequests w !! id = Some r ->
  status r = pending ->
  let wa := (approveRequest id w).2 in
  let wd := (denyRequest id w).2 in
  (approveRequest id w).1 = true
  /\ getRequest id wa
     = Some (set_respondedAt (clock w) (set_status approved r))
  /\ approveRequest id wa = (false, wa)
  /\ denyRequest id wa = (false, wa)
  /\ (denyRequest id w).1 = true
  /\ getRequest id wd
     = Some (set_respondedAt (clock w) (set_status denied r))
  /\ approveRequest id wd = (false, wd)
  /\ denyRequest id wd = (false, wd)
  /\ network wa = network w /\ clock wa = clock w
  /\ network wd = network w /\ clock wd = clock w.
Proof.
  intros Hget Hp wa wd. subst wa wd. unfold approveRequest, denyRequest.
  rewrite !(resolveRequest_pending _ id w r Hget Hp). cbn [fst snd].
  assert (Hlater : forall s s',
             s <> pending ->
             resolveRequest s' id
               (store_set id (set_respondedAt (clock w) (set_status s r)) w)
             = (false,
                store_set id (set_respondedAt (clock w) (set_status s r)) w)).
  { intros s s' Hs. unfold resolveRequest.
    cbn [store_set pendingRequests]. rewrite lookup_insert_eq.
    rewrite bool_decide_eq_true_2 by exact Hs. reflexivity. }
  unfold getRequest. cbn [store_set pendingRequests network clock].
  rewrite !lookup_insert_eq.
  repeat split; try reflexivity; apply Hlater; discriminate.
Qed.

(** Neither a poll of a simulated id nor a wait on one sends anything to
    the authority. *)
Lemma poll_simulated_local (id : jsstring) (w : World) :
  startsWith id (lit "SIMULATED-") = true ->
  network (pollCIBAResult env id w).2 = network w.
Proof.
  intros Hsim.
  destruct (poll_cases env id w) as [[_ Hrun] | (r & _ & Hcase)];
    [rewrite Hrun; reflexivity|].
  destruct Hcase as [(_ & Hrun) | [(_ & _ & Hrun) | (_ & Hreal & _)]];
    [rewrite Hrun; reflexivity | rewrite Hrun; reflexivity | congruence].
Qed.

Lemma waitLoop_simulated_local (id : jsstring) (fuel : nat) :
  startsWith id (lit "SIMULATED-") = true ->
  forall (startTime maxWaitMs pollIntervalMs : Z) (w : World) out,
    waitLoop env fuel id startTime maxWaitMs pollIntervalMs w = Some out ->
    network out.2 = network w.
Proof.
  intros Hsim. induction fuel as [|fuel IH]; intros start maxWaitMs p w out;
    rewrite waitLoop_unfold;
    destruct (clock w - start <? maxWaitMs); try discriminate;
    try (intros [= <-]; reflexivity).
  pose proof (poll_simulated_local id w Hsim) as Hpoll.
  destruct (pollCIBAResult env id w) as [result w1]. simpl in Hpoll.
  repeat (case_bool_decide; [intros [= <-]; exact Hpoll|]).
  cbv zeta. set (p' := adopt_interval _ _).
  destruct (waitLoop env fuel id start maxWaitMs p' (setTimeout env p' w1))
    as [[[tag polls] w']|] eqn:Hrec; [|discriminate].
  intros [= <-]. rewrite <- Hpoll.
  exact (IH start maxWaitMs p' (setTimeout env p' w1) _ Hrec).
Qed.

(** X10. For an id with the prefix ["SIMULATED-"], polls and waits are local:
    the log of network calls is the same before and after. *)
Theorem simulated_stays_local (id : jsstring) (w : World) :
  startsWith id (lit "SIMULATED-") = true ->
  network (pollCIBAResult env id w).2 = network w
  /\ forall fuel maxWaitMs out,
      waitForApproval env fuel id maxWaitMs w = Some out ->
      network out.2 = network w.
Proof.
  intros Hsim. split; [apply poll_simulated_local, Hsim|].
  intros fuel maxWaitMs out. unfold waitForApproval.
  apply waitLoop_simulated_local, Hsim.
Qed.

(** One iteration that ends the wait. *)
Lemma waitForApproval_first_poll (fuel : nat) (id : jsstring)
    (maxWaitMs : Z) (w w1 : World) (result : Status) :
  0 < maxWaitMs ->
  pollCIBAResult env id w = (result, w1) ->
  terminal result ->
  waitForApproval env (S fuel) id maxWaitMs w = Some (result, [result], w1).
Proof.
  intros Hbudget Hpoll Hterm. unfold waitForApproval.
  rewrite waitLoop_unfold.
  replace (clock w - clock w <? maxWaitMs) with true
    by (symmetry; apply Z.ltb_lt; lia).
  rewrite Hpoll.
  destruct Hterm as [-> | [-> | ->]]; reflexivity.
Qed.

(** X11. A simulated request resolved by hand before its deadline ends a wait
    at the first poll: the wait returns the manual decision, makes one
    poll and no network call, and no time passes. *)
Theorem wait_after_manual_resolution (fuel : nat) (id : jsstring)
    (maxWaitMs : Z) (w : World) (r : CIBARequest) :
  pendingRequests w !! id = Some r ->
  status r = pending ->
  clock w <= expiresAt r ->
  startsWith id (lit "SIMULATED-") = true ->
  0 < maxWaitMs ->
  waitForApproval env (S fuel) id maxWaitMs (approveRequest id w).2
  = Some (approved, [approved], (approveRequest id w).2)
  /\ waitForApproval env (S fuel) id maxWaitMs (denyRequest id w).2
     = Some (denied, [denied], (denyRequest id w).2).
Proof.
  intros Hget Hp Hlive Hsim Hbudget.
  unfold approveRequest, denyRequest.
  rewrite !(resolveRequest_pending _ id w r Hget Hp). cbn [snd].
  split.
  - apply waitForApproval_first_poll; [assumption | | left; reflexivity].
    apply (poll_simulated_live env id _
             (set_respondedAt (clock w) (set_status approved r)));
      [apply lookup_insert_eq | exact Hlive | exact Hsim].
  - apply waitForApproval_first_poll; [assumption | | right; left; reflexivity].
    apply (poll_simulated_live env id _
             (set_respondedAt (clock w) (set_status denied r)));
      [apply lookup_insert_eq | exact Hlive | exact Hsim].
Qed.

(** X12. A wait with a positive budget on an id the map does not hold, or on a
    request past its deadline, returns [expired] (not [timeout]) after one
    poll, without a network call and without sleeping. *)
Theorem wait_expired_at_once (fuel : nat) (id : jsstring) (maxWaitMs : Z)
    (w : World) :
  0 < maxWaitMs ->
  (pendingRequests w !! id = None
   \/ exists r, pendingRequests w !! id = Some r /\ expiresAt r < clock w) ->
  exists w',
    waitForApproval env (S fuel) id maxWaitMs w = Some (expired, [expired], w')
    /\ clock w' = clock w
    /\ network w' = network w.
Proof.
  intros Hbudget [Hnone | (r & Hget & Hdue)].
  - exists w. split; [|auto].
    apply waitForApproval_first_poll; [assumption | | right; right; reflexivity].
    apply (poll_unknown env id w Hnone).
  - exists (store_set id (set_status expired r) w). split; [|auto].
    apply waitForApproval_first_poll; [assumption | | right; right; reflexivity].
    unfold pollCIBAResult. rewrite Hget.
    apply Z.ltb_lt in Hdue. rewrite Hdue. reflexivity.
Qed.

Lemma poll_terminal_or_unknown (id : jsstring) (w : World) :
  terminal (pollCIBAResult env id w).1 ->
  (exists r', getRequest id (pollCIBAResult env id w).2 = Some r'
              /\ status r' = (pollCIBAResult env id w).1)
  \/ ((pollCIBAResult env id w).1 = expired
      /\ getRequest id (pollCIBAResult env id w).2 = None).
Proof.
  intros Hterm.
  destruct (pendingRequests w !! id) as [r|] eqn:Hget.
  - left. destruct (poll_terminal_stored env id w r Hget Hterm)
      as (r' & Hr' & Hs & _). eauto.
  - right. rewrite (poll_unknown env id w Hget). auto.
Qed.

Lemma waitLoop_terminal_stored (id : jsstring) (fuel : nat) :
  forall (startTime maxWaitMs pollIntervalMs : Z) (w : World) tag polls w',
    waitLoop env fuel id startTime maxWaitMs pollIntervalMs w
    = Some (tag, polls, w') ->
    terminal tag ->
    (exists r', getRequest id w' = Some r' /\ status r' = tag)
    \/ (tag = expired /\ getRequest id w' = None).
Proof.
  induction fuel as [|fuel IH]; intros start maxWaitMs p w tag polls w';
    rewrite waitLoop_unfold;
    destruct (clock w - start <? maxWaitMs); try discriminate;
    try (intros [= <- <- <-] [? | [? | ?]]; discriminate).
  pose proof (poll_terminal_or_unknown id w) as Hpoll.
  destruct (pollCIBAResult env id w) as [result w1]. cbn [fst snd] in Hpoll.
  case_bool_decide as Ha;
    [intros [= <- <- <-] _; rewrite Ha in Hpoll; apply Hpoll; left; reflexivity |].
  case_bool_decide as Hd;
    [intros [= <- <- <-] _; rewrite Hd in Hpoll; apply Hpoll;
     right; left; reflexivity |].
  case_bool_decide as He;
    [intros [= <- <- <-] _; rewrite He in Hpoll; apply Hpoll;
     right; right; reflexivity |].
  cbv zeta. set (p' := adopt_interval _ _).
  destruct (waitLoop env fuel id start maxWaitMs p' (setTimeout env p' w1))
    as [[[tag0 polls0] w0]|] eqn:Hrec; [|discriminate].
  intros [= <- <- <-]. exact (IH _ _ _ _ _ _ _ Hrec).
Qed.

(** X13. The decision a wait returns is the one on record: when
    [waitForApproval] returns [approved] or [denied], the map holds the
    request with that status; when it returns [expired], the request is
    stored as [expired] or the id is unknown. *)
Theorem wait_decision_is_stored (fuel : nat) (id : jsstring) (maxWaitMs : Z)
    (w : World) (tag : Status) (polls : list Status) (w' : World) :
  waitForApproval env fuel id maxWaitMs w = Some (tag, polls, w') ->
  (tag = approved \/ tag = denied ->
   exists r', getRequest id w' = Some r' /\ status r' = tag)
  /\ (tag = expired ->
      getRequest id w' = None
      \/ exists r', getRequest id w' = Some r' /\ status r' = expired).
Proof.
  unfold waitForApproval. intros Hrun. split.
  - intros Htag.
    destruct (waitLoop_terminal_stored _ _ _ _ _ _ _ _ _ Hrun) as [H | [He _]];
      [destruct Htag as [-> | ->]; [left | right; left]; reflexivity
      | exact H
      | destruct Htag as [-> | ->]; discriminate].
  - intros ->.
    destruct (waitLoop_terminal_stored _ _ _ _ _ _ _ _ _ Hrun) as [H | [_ H]];
      [right; right; reflexivity | right; exact H | left; exact H].
Qed.

(** A poll of a simulated id leaves the stored interval alone. *)
Lemma poll_simulated_interval (id : jsstring) (w : World) :
  startsWith id (lit "SIMULATED-") = true ->
  pendingRequests (pollCIBAResult env id w).2 !! id ≫= interval
  = pendingRequests w !! id ≫= interval.
Proof.
  intros Hsim.
  destruct (poll_cases env id w) as [[_ Hrun] | (r & Hget & Hcase)];
    [rewrite Hrun; reflexivity|].
  destruct Hcase as [(_ & Hrun) | [(_ & _ & Hrun) | (_ & Hreal & _)]];
    [|rewrite Hrun; reflexivity | congruence].
  rewrite Hrun, Hget. cbn [snd store_set pendingRequests].
  rewrite lookup_insert_eq. reflexivity.
Qed.

Lemma poll_simulated_clock (id : jsstring) (w : World) :
  startsWith id (lit "SIMULATED-") = true ->
  clock (pollCIBAResult env id w).2 = clock w.
Proof.
  intros Hsim.
  destruct (poll_cases env id w) as [[_ Hrun] | (r & _ & Hcase)];
    [rewrite Hrun; reflexivity|].
  destruct Hcase as [(_ & Hrun) | [(_ & _ & Hrun) | (_ & Hreal & _)]];
    [rewrite Hrun; reflexivity | rewrite Hrun; reflexivity | congruence].
Qed.

Lemma waitLoop_simulated_polls (id : jsstring) (fuel : nat) :
  startsWith id (lit "SIMULATED-") = true ->
  forall (startTime maxWaitMs : Z) (w : World) tag polls w',
    pendingRequests w !! id ≫= interval = None ->
    waitLoop env fuel id startTime maxWaitMs 5000 w = Some (tag, polls, w') ->
    (maxWaitMs - (clock w - startTime) <= 0 -> polls = [])
    /\ (0 < maxWaitMs - (clock w - startTime) ->
        5000 * (Z.of_nat (length polls) - 1)
        < maxWaitMs - (clock w - startTime)).
Proof.
  intros Hsim. induction fuel as [|fuel IH]; intros start maxWaitMs w tag polls w' Hint;
    rewrite waitLoop_unfold;
    destruct (clock w - start <? maxWaitMs) eqn:Hcond; try discriminate;
    try (intros [= <- <- <-]; apply Z.ltb_ge in Hcond; split; [reflexivity | lia]).
  apply Z.ltb_lt in Hcond.
  pose proof (poll_simulated_interval id w Hsim) as Hint1.
  pose proof (poll_simulated_clock id w Hsim) as Hclock1.
  destruct (pollCIBAResult env id w) as [result w1]. cbn [snd] in Hint1, Hclock1.
  repeat (case_bool_decide;
          [intros [= <- <- <-]; split; [lia | simpl; lia] |]).
  cbv zeta. unfold adopt_interval. rewrite Hint1, Hint.
  destruct (waitLoop env fuel id start maxWaitMs 5000 (setTimeout env 5000 w1))
    as [[[tag0 polls0] w0]|] eqn:Hrec; [|discriminate].
  intros [= <- <- <-].
  assert (Hint2 : pendingRequests (setTimeout env 5000 w1) !! id ≫= interval = None)
    by (cbn [setTimeout pendingRequests]; rewrite Hint1; exact Hint).
  destruct (IH start maxWaitMs (setTimeout env 5000 w1) _ _ _ Hint2 Hrec)
    as [Hnone Hsome].
  assert (Hslept : clock w + 5000 <= clock (setTimeout env 5000 w1)).
  { cbn [setTimeout clock]. rewrite Hclock1.
    change (timer_delay 5000) with 5000. lia. }
  split; [lia|]. intros _.
  destruct (Z_le_gt_dec (maxWaitMs - (clock (setTimeout env 5000 w1) - start)) 0)
    as [Hdone | Hmore].
  - rewrite (Hnone Hdone). simpl. lia.
  - specialize (Hsome ltac:(lia)). cbn [length]. lia.
Qed.

(** X14. A wait on a simulated request with no interval of its own (as the
    fallback creates them) polls every five seconds or less often: it makes
    at most one poll per started five seconds of its budget. *)
Theorem simulated_wait_poll_count (fuel : nat) (id : jsstring)
    (maxWaitMs : Z) (w : World) (tag : Status) (polls : list Status)
    (w' : World) :
  startsWith id (lit "SIMULATED-") = true ->
  pendingRequests w !! id ≫= interval = None ->
  waitForApproval env fuel id maxWaitMs w = Some (tag, polls, w') ->
  (maxWaitMs <= 0 -> polls = [])
  /\ (0 < maxWaitMs -> 5000 * (Z.of_nat (length polls) - 1) < maxWaitMs).
Proof.
  intros Hsim Hint. unfold waitForApproval. rewrite Hint.
  change (opt_Z_or None 5 * 1000) with 5000. intros Hrun.
  destruct (waitLoop_simulated_polls id fuel Hsim _ _ _ _ _ _ Hint Hrun)
    as [Hnone Hsome].
  split; intros H; [apply Hnone; lia|].
  specialize (Hsome ltac:(lia)). lia.
Qed.

End Resolution.

(** ** Listing the pending requests of a user *)

Lemma expire_if_due_idem (uid : jsstring) (now : Z) (r : CIBARequest) :
  expire_if_due uid now (expire_if_due uid now r) = expire_if_due uid now r.
Proof.
  unfold expire_if_due.
  destruct (bool_decide (userId r = uid) && bool_decide (status r = pending)
            && (expiresAt r <? now)) eqn:Hdue; [|rewrite Hdue; reflexivity].
  cbn [status set_status userId expiresAt].
  rewrite (bool_decide_eq_false_2 (expired = pending)) by discriminate.
  rewrite andb_false_r. reflexivity.
Qed.

Lemma expire_if_due_keeps (uid : jsstring) (now : Z) (r : CIBARequest) :
  userId r <> uid \/ status r <> pending \/ now <= expiresAt r ->
  expire_if_due uid now r = r.
Proof.
  intros Hkeep. unfold expire_if_due.
  destruct (bool_decide (userId r = uid) && bool_decide (status r = pending)
            && (expiresAt r <? now)) eqn:Hdue; [|reflexivity].
  apply andb_true_iff in Hdue as [Hdue Hlate].
  apply andb_true_iff in Hdue as [Hu Hs].
  apply bool_decide_eq_true in Hu, Hs. apply Z.ltb_lt in Hlate.
  destruct Hkeep as [? | [? | ?]]; [contradiction | contradiction | lia].
Qed.

(** X15. [getPendingRequestsForUser] returns exactly the stored requests of the
    user that are [pending] and not past their deadline, and these stay
    stored as they are.  Afterwards no request of the user is [pending]
    past its deadline; every request that is another user's, not
    [pending], or still live is unchanged.  The call sends nothing, takes
    no time, and a second call at the same instant changes nothing. *)
Theorem pending_requests_listed (uid : jsstring) (w : World) :
  let (requests, w') := getPendingRequestsForUser uid w in
  (forall r,
      r ∈ requests <->
      exists id, getRequest id w = Some r
                 /\ userId r = uid /\ status r = pending
                 /\ clock w <= expiresAt r)
  /\ (forall r, r ∈ requests -> exists id, getRequest id w' = Some r)
  /\ (forall id r',
        getRequest id w' = Some r' ->
        userId r' = uid -> status r' = pending -> clock w <= expiresAt r')
  /\ (forall id r,
        getRequest id w = Some r ->
        userId r <> uid \/ status r <> pending \/ clock w <= expiresAt r ->
        getRequest id w' = Some r)
  /\ network w' = network w
  /\ clock w' = clock w
  /\ (getPendingRequestsForUser uid w').2 = w'.
Proof.
  unfold getPendingRequestsForUser, getRequest. cbn [pendingRequests network clock snd].
  assert (Hmem : forall r,
             r ∈ filter
                   (fun r => userId r = uid /\ status r = pending
                             /\ ¬ (expiresAt r < clock w))
                   ((map_to_list (pendingRequests w)).*2)
             <-> exists id, pendingRequests w !! id = Some r
                            /\ userId r = uid /\ status r = pending
                            /\ clock w <= expiresAt r).
  { intros r. rewrite list_elem_of_filter, list_elem_of_fmap. split.
    - intros ((Hu & Hs & Hl) & [id r0] & -> & Hin).
      apply elem_of_map_to_list in Hin. exists id. simpl in *.
      repeat split; try assumption. lia.
    - intros (id & Hget & Hu & Hs & Hl). split; [repeat split; try assumption; lia|].
      exists (id, r). split; [reflexivity|].
      apply elem_of_map_to_list. exact Hget. }
  split; [exact Hmem|]. split; [|split; [|split; [|split; [|split]]]].
  - intros r Hr. apply Hmem in Hr as (id & Hget & Hu & Hs & Hl).
    exists id. rewrite lookup_fmap, Hget. simpl.
    rewrite expire_if_due_keeps by auto. reflexivity.
  - intros id r'. rewrite lookup_fmap.
    destruct (pendingRequests w !! id) as [r|]; [|discriminate].
    simpl. intros [= <-]. unfold expire_if_due.
    destruct (bool_decide (userId r = uid) && bool_decide (status r = pending)
              && (expiresAt r <? clock w)) eqn:Hdue.
    + simpl. discriminate.
    + intros Hu Hs.
      rewrite !bool_decide_eq_true_2 in Hdue by assumption. simpl in Hdue.
      apply Z.ltb_ge in Hdue. exact Hdue.
  - intros id r Hget Hkeep. rewrite lookup_fmap, Hget. simpl.
    rewrite expire_if_due_keeps by exact Hkeep. reflexivity.
  - reflexivity.
  - reflexivity.
  - f_equal. rewrite <- map_fmap_compose. apply map_fmap_ext.
    intros id r _. simpl. apply expire_if_due_idem.
Qed.

(** ** Sanitising and the transfer prompt *)

Lemma sanitize_cons (c : N) (text : jsstring) :
  sanitize (c :: text) = if kept c then c :: sanitize text else sanitize text.
Proof.
  unfold sanitize. rewrite filter_cons.
  destruct (kept c) eqn:Hk; case_decide; congruence.
Qed.

(** X16. [sanitize] only deletes characters: its result is a subsequence of the
    text, which it leaves as it is when every character is accepted; doing
    it twice is doing it once. *)
Theorem sanitize_only_deletes (text : jsstring) :
  sublist (sanitize text) text
  /\ sanitize (sanitize text) = sanitize text
  /\ (all_allowed text -> sanitize text = text)
  /\ (length (sanitize text) <= length text)%nat.
Proof.
  split; [apply sublist_filter|].
  split; [|split; [|apply length_filter]].
  - induction text as [|c text IH]; [reflexivity|].
    rewrite sanitize_cons. destruct (kept c) eqn:Hk; [|exact IH].
    rewrite sanitize_cons, Hk, IH. reflexivity.
  - induction 1 as [|c text Hc _ IH]; [reflexivity|].
    rewrite sanitize_cons, kept_allowed, Hc, IH. reflexivity.
Qed.

Lemma sanitize_all_removed (text : jsstring) :
  Forall (fun c => kept c = false) text -> sanitize text = [].
Proof.
  induction 1 as [|c text Hc _ IH]; [reflexivity|].
  rewrite sanitize_cons, Hc. exact IH.
Qed.

(** X17. The prompt for a transfer shows the amount and the recipient and
    nothing else: operation name, description, source account and reason
    do not enter it.  A missing or empty recipient reads ["unknown"]; a
    recipient made only of characters that [sanitize] removes leaves the
    recipient empty, because the default is chosen before sanitising. *)
Theorem transfer_prompt_recipient :
  (forall op op' d d',
      type d = transfer -> type d' = transfer ->
      amount d = amount d' -> toAccount d = toAccount d' ->
      createBindingMessage op d = createBindingMessage op' d')
  /\ (forall op d,
        type d = transfer ->
        toAccount d = None \/ toAccount d = Some [] ->
        createBindingMessage op d
        = lit "Approve transfer of "
          ++ opt_str_or (toLocaleString <$> amount d) (lit "0")
          ++ lit " USD to unknown")
  /\ (forall op d c account,
        type d = transfer ->
        toAccount d = Some (c :: account) ->
        Forall (fun c => kept c = false) (c :: account) ->
        createBindingMessage op d
        = lit "Approve transfer of "
          ++ opt_str_or (toLocaleString <$> amount d) (lit "0")
          ++ lit " USD to ").
Proof.
  split; [|split].
  - intros op op' d d' Ht Ht' Ha Hto. unfold createBindingMessage.
    rewrite Ht, Ht', Ha, Hto. reflexivity.
  - intros op d Ht Hto. unfold createBindingMessage. rewrite Ht.
    destruct Hto as [-> | ->]; reflexivity.
  - intros op d c account Ht Hto Hbad. unfold createBindingMessage.
    rewrite Ht, Hto. cbn [opt_str_or str_or].
    rewrite (sanitize_all_removed _ Hbad). reflexivity.
Qed.

Lemma transfer_prompt_recipient_witness :
  createBindingMessage (lit "Transfer")
    (mkDetails transfer (lit "x") (Some (of_Z 75000)) None
       (Some (lit "$$$")) None)
  = lit "Approve transfer of 75,000 USD to ".
Proof.
  destruct transfer_prompt_recipient as (_ & _ & H).
  rewrite (H (lit "Transfer")
             (mkDetails transfer (lit "x") (Some (of_Z 75000)) None
                (Some (lit "$$$")) None)
             36%N (lit "$$") eq_refl eq_refl).
  - reflexivity.
  - repeat constructor.
Defined.

Lemma createBindingMessage_allowed_witness :
  (type demo_details = transfer ->
   amount demo_details <> Some PosInfinity
   /\ amount demo_details <> Some NegInfinity)
  /\ all_allowed (createBindingMessage (lit "Transfer $75,000") demo_details).
Proof.
  assert (H : type demo_details = transfer ->
              amount demo_details <> Some PosInfinity
              /\ amount demo_details <> Some NegInfinity)
    by (intros _; split; discriminate).
  split; [exact H|].
  exact (createBindingMessage_allowed (lit "Transfer $75,000") demo_details H).
Defined.

(** * The treasury *)

Section TreasuryProperties.

Variable isoDate : Z -> jsstring.

Lemma find_debit_same (id : jsstring) (a : number)
    (accounts : list Treasury.BankAccount) (acc : Treasury.BankAccount) :
  List.find (fun acc => bool_decide (Treasury.accountId acc = id)) accounts
  = Some acc ->
  List.find (fun acc => bool_decide (Treasury.accountId acc = id))
    (Treasury.debit id a accounts)
  = Some (Treasury.mkAccount (Treasury.accountId acc)
            (Treasury.accountName acc) (Treasury.accountNumber acc)
            (num_sub (Treasury.balance acc) a) (Treasury.type acc)).
Proof.
  induction accounts as [|x rest IH]; simpl; [discriminate|].
  destruct (bool_decide (Treasury.accountId x = id)) eqn:Hx; simpl.
  - intros [= ->]. rewrite Hx. reflexivity.
  - rewrite Hx. exact IH.
Qed.

Lemma find_debit_other (id id' : jsstring) (a : number)
    (accounts : list Treasury.BankAccount) :
  id' <> id ->
  List.find (fun acc => bool_decide (Treasury.accountId acc = id'))
    (Treasury.debit id a accounts)
  = List.find (fun acc => bool_decide (Treasury.accountId acc = id')) accounts.
Proof.
  intros Hne. induction accounts as [|x rest IH]; simpl; [reflexivity|].
  destruct (bool_decide (Treasury.accountId x = id)) eqn:Hx; simpl.
  - apply bool_decide_eq_true in Hx.
    rewrite !bool_decide_eq_false_2 by congruence. reflexivity.
  - rewrite IH. reflexivity.
Qed.

Lemma debit_Forall (P : Treasury.BankAccount -> Prop) (id : jsstring)
    (a : number) (accounts : list Treasury.BankAccount)
    (acc : Treasury.BankAccount) :
  List.find (fun acc => bool_decide (Treasury.accountId acc = id)) accounts
  = Some acc ->
  Forall P accounts ->
  P (Treasury.mkAccount (Treasury.accountId acc)
       (Treasury.accountName acc) (Treasury.accountNumber acc)
       (num_sub (Treasury.balance acc) a) (Treasury.type acc)) ->
  Forall P (Treasury.debit id a accounts).
Proof.
  intros Hfind Hall Hnew. induction Hall as [|x rest Hx Hrest IH]; simpl in *;
    [constructor|].
  destruct (bool_decide (Treasury.accountId x = id)).
  - injection Hfind as ->. constructor; assumption.
  - constructor; auto.
Qed.

(** X19. A refused transfer changes nothing: when [simulateTransfer] reports
    failure, accounts and history are as before, the result names an error
    and no transaction id; a successful one names the id ["TXN"] followed by
    the time and no error. *)
Theorem refused_transfer_changes_nothing (fromAccountId toAccount : jsstring)
    (a : number) (text : jsstring) (now : Z) (bank : Treasury.Bank) :
  let (result, bank') :=
    Treasury.simulateTransfer isoDate fromAccountId toAccount a text now bank in
  (Treasury.success result = false ->
   bank' = bank
   /\ Treasury.transactionId result = None
   /\ is_Some (Treasury.error result))
  /\ (Treasury.success result = true ->
      Treasury.transactionId result = Some (lit "TXN" ++ Z_to_string now)
      /\ Treasury.error result = None).
Proof.
  unfold Treasury.simulateTransfer.
  destruct (Treasury.getBankAccount fromAccountId bank) as [acc|];
    [destruct (num_lt (Treasury.balance acc) a);
     [|destruct (num_le a (of_Z 0))]|];
    cbn [Treasury.success Treasury.transactionId Treasury.error];
    split; intros H; try discriminate; eauto.
Qed.

Lemma Qle_bool_false (x y : Q) : Qle_bool x y = false <-> (y < x)%Q.
Proof.
  split.
  - intros H. apply Qnot_le_lt. intros Hle. apply Qle_bool_iff in Hle. congruence.
  - intros H. destruct (Qle_bool x y) eqn:Hle; [|reflexivity].
    apply Qle_bool_iff in Hle. exfalso. revert H. apply Qle_not_lt, Hle.
Qed.

(** X20. Which transfers go through: from an account with a finite balance, a
    transfer of a finite amount succeeds exactly when the amount is
    positive and does not exceed the balance; an infinite amount never
    does. *)
Theorem transfer_succeeds_iff (fromAccountId toAccount : jsstring)
    (a : number) (text : jsstring) (now : Z) (bank : Treasury.Bank)
    (acc : Treasury.BankAccount) (b : Q) :
  Treasury.getBankAccount fromAccountId bank = Some acc ->
  Treasury.balance acc = Finite b ->
  let result :=
    (Treasury.simulateTransfer isoDate fromAccountId toAccount a text now bank).1 in
  (forall q, a = Finite q ->
             (Treasury.success result = true <-> (0 < q /\ q <= b)%Q))
  /\ (a = PosInfinity \/ a = NegInfinity -> Treasury.success result = false).
Proof.
  intros Hacc Hb. unfold Treasury.simulateTransfer. rewrite Hacc, Hb.
  split.
  - intros q ->. unfold num_lt, num_le, num_gt, of_Z.
    destruct (Qle_bool q b) eqn:Hqb; cbn [negb].
    + apply Qle_bool_iff in Hqb.
      destruct (Qle_bool q (inject_Z 0)) eqn:Hq0; cbn [fst Treasury.success].
      * apply Qle_bool_iff in Hq0. split; [discriminate|].
        intros [Hpos _]. exfalso. revert Hpos. apply Qle_not_lt, Hq0.
      * apply Qle_bool_false in Hq0. split; [auto | reflexivity].
    + apply Qle_bool_false in Hqb. cbn [fst Treasury.success].
      split; [discriminate|]. intros [_ Hle]. exfalso. revert Hqb.
      apply Qle_not_lt, Hle.
  - intros [-> | ->]; reflexivity.
Qed.

Lemma Qred_inject_Z (z : Z) : Qred (inject_Z z) = inject_Z z.
Proof.
  unfold Qred, inject_Z.
  pose proof (Z.ggcd_gcd z 1) as Hg.
  pose proof (Z.ggcd_correct_divisors z 1) as Hd.
  destruct (Z.ggcd z 1) as [g [aa bb]]. cbn [fst snd] in *.
  rewrite Z.gcd_1_r in Hg. subst g. destruct Hd as [Ha Hb].
  rewrite Z.mul_1_l in Ha, Hb. subst aa bb. reflexivity.
Qed.

Lemma num_sub_of_Z (x y : Z) : num_sub (of_Z x) (of_Z y) = of_Z (x - y).
Proof.
  unfold num_sub, of_Z. f_equal. rewrite <- (Qred_inject_Z (x - y)).
  apply Qred_complete. unfold Qeq. simpl. lia.
Qed.

(** X21. What a successful transfer does: the source account (the first with
    that id) keeps its fields but for the balance, which for a whole
    balance [x] of at most 2^53 and a whole amount [y], the range in which
    doubles subtract without rounding, is [x - y]; every other account id
    resolves to what it did before, no account is added or dropped, and
    the history gains one completed transaction at its head, which
    [getTransactionHistory(1)] then returns. *)
Theorem successful_transfer_effect (fromAccountId toAccount : jsstring)
    (a : number) (text : jsstring) (now : Z) (bank : Treasury.Bank) :
  let run :=
    Treasury.simulateTransfer isoDate fromAccountId toAccount a text now bank in
  let newTransaction :=
    Treasury.mkTransaction (lit "TXN" ++ Z_to_string now) (isoDate now)
      a fromAccountId toAccount text Treasury.completed in
  Treasury.success run.1 = true ->
  exists (acc : Treasury.BankAccount) (remaining : number),
    Treasury.getBankAccount fromAccountId bank = Some acc
    /\ Treasury.getBankAccount fromAccountId run.2
       = Some (Treasury.mkAccount (Treasury.accountId acc)
                 (Treasury.accountName acc) (Treasury.accountNumber acc)
                 remaining (Treasury.type acc))
    /\ (forall x y : Z,
          Treasury.balance acc = of_Z x -> a = of_Z y -> x <= 2 ^ 53 ->
          0 < y <= x /\ remaining = of_Z (x - y))
    /\ (forall other,
          other <> fromAccountId ->
          Treasury.getBankAccount other run.2
          = Treasury.getBankAccount other bank)
    /\ Treasury.accountId <$> Treasury.bankAccounts run.2
       = Treasury.accountId <$> Treasury.bankAccounts bank
    /\ Treasury.transactionHistory run.2
       = newTransaction :: Treasury.transactionHistory bank
    /\ Treasury.getTransactionHistory (Some (of_Z 1)) run.2 = [newTransaction].
Proof.
  intros run newTransaction. subst run newTransaction.
  unfold Treasury.simulateTransfer.
  destruct (Treasury.getBankAccount fromAccountId bank) as [acc|] eqn:Hacc;
    [|discriminate].
  destruct (num_lt (Treasury.balance acc) a) eqn:Hfunds; [discriminate|].
  destruct (num_le a (of_Z 0)) eqn:Hamount; [discriminate|].
  intros _. exists acc, (num_sub (Treasury.balance acc) a).
  split; [reflexivity|]. cbn [snd].
  unfold Treasury.getBankAccount in *. cbn [Treasury.bankAccounts].
  split; [apply find_debit_same, Hacc|].
  split.
  { intros x y Hx Hy _. rewrite Hx, Hy in *. split; [|apply num_sub_of_Z].
    unfold num_lt, num_le, num_gt, of_Z in Hfunds, Hamount.
    apply negb_false_iff, Qle_bool_iff in Hfunds.
    apply Qle_bool_false in Hamount.
    rewrite <- Zle_Qle in Hfunds. rewrite <- Zlt_Qlt in Hamount. lia. }
  split; [intros other Hne; apply find_debit_other, Hne|].
  split; [|split; [reflexivity|]].
  - clear Hacc. induction (Treasury.bankAccounts bank) as [|x rest IH];
      [reflexivity|].
    cbn [Treasury.debit]. case_bool_decide; rewrite !fmap_cons;
      cbn [Treasury.accountId]; [reflexivity | f_equal; exact IH].
  - unfold Treasury.getTransactionHistory, slice_end.
    cbn [num_truthy of_Z inject_Z Qeq_bool Qnum Qden negb
         Treasury.transactionHistory length].
    change (Qeq_bool (1 # 1) 0) with false. cbn [negb].
    replace (Z.quot 1 1) with 1 by reflexivity.
    change (1 <? 0) with false. cbv iota.
    replace (Z.to_nat (Z.min 1 (Z.of_nat (S (length (Treasury.transactionHistory bank))))))
      with 1%nat by lia.
    reflexivity.
Qed.

(** X22. No overdraft: if every balance is finite and not negative, it still is
    after any transfer whose amount is a number (not NaN), accepted or
    refused. *)
Theorem transfers_keep_solvent (fromAccountId toAccount : jsstring)
    (a : number) (text : jsstring) (now : Z) (bank : Treasury.Bank) :
  Treasury.solvent bank ->
  a <> NaN ->
  Treasury.solvent
    (Treasury.simulateTransfer isoDate fromAccountId toAccount a text now bank).2.
Proof.
  intros Hsolv Hnan. unfold Treasury.simulateTransfer.
  destruct (Treasury.getBankAccount fromAccountId bank) as [acc|] eqn:Hacc;
    [|exact Hsolv].
  destruct (num_lt (Treasury.balance acc) a) eqn:Hlt; [exact Hsolv|].
  destruct (num_le a (of_Z 0)) eqn:Hle; [exact Hsolv|].
  unfold Treasury.solvent. cbn [snd Treasury.bankAccounts].
  assert (Hin : exists b, Treasury.balance acc = Finite b /\ (0 <= b)%Q).
  { unfold Treasury.getBankAccount in Hacc. apply List.find_some in Hacc as [Hin _].
    unfold Treasury.solvent in Hsolv. rewrite List.Forall_forall in Hsolv.
    apply Hsolv, Hin. }
  destruct Hin as (b & Hb & _). rewrite Hb in Hlt.
  destruct a as [q | | |]; try discriminate; [|congruence].
  unfold num_lt, num_gt in Hlt. apply negb_false_iff, Qle_bool_iff in Hlt.
  apply (debit_Forall _ _ _ _ acc); [exact Hacc | exact Hsolv|].
  cbn [Treasury.balance]. rewrite Hb. simpl. eexists. split; [reflexivity|].
  rewrite Qred_correct. unfold Qminus. apply Qle_minus_iff in Hlt. exact Hlt.
Qed.

End TreasuryProperties.

Lemma of_Z_truthy (z : Z) : z <> 0 -> num_truthy (of_Z z) = true.
Proof.
  intros Hz. unfold num_truthy, of_Z. apply negb_true_iff.
  destruct (Qeq_bool (inject_Z z) 0) eqn:H; [|reflexivity].
  apply Qeq_bool_iff in H. unfold Qeq in H. simpl in H. lia.
Qed.

(** X23. [getTransactionHistory] always returns a prefix of the history, newest
    first: all of it without a limit or with limit 0 or NaN, the first [n]
    entries (or all, if there are fewer) for a positive whole limit [n],
    and all but the last [n] for a limit of [-n]. *)
Theorem transaction_history_limit (bank : Treasury.Bank) :
  (forall limit, exists k,
      Treasury.getTransactionHistory limit bank
      = take k (Treasury.transactionHistory bank))
  /\ Treasury.getTransactionHistory None bank = Treasury.transactionHistory bank
  /\ Treasury.getTransactionHistory (Some (of_Z 0)) bank
     = Treasury.transactionHistory bank
  /\ Treasury.getTransactionHistory (Some NaN) bank
     = Treasury.transactionHistory bank
  /\ (forall n : nat,
        (0 < n)%nat ->
        Treasury.getTransactionHistory (Some (of_Z (Z.of_nat n))) bank
        = take n (Treasury.transactionHistory bank))
  /\ (forall n : nat,
        (0 < n)%nat ->
        Treasury.getTransactionHistory (Some (of_Z (- Z.of_nat n))) bank
        = take (length (Treasury.transactionHistory bank) - n)
            (Treasury.transactionHistory bank)).
Proof.
  split; [|split; [reflexivity | split; [reflexivity | split; [reflexivity | split]]]].
  - intros [n|]; unfold Treasury.getTransactionHistory.
    + destruct (num_truthy n); [eexists; reflexivity|].
      exists (length (Treasury.transactionHistory bank)).
      symmetry. apply firstn_all.
    + exists (length (Treasury.transactionHistory bank)).
      symmetry. apply firstn_all.
  - intros n Hn. unfold Treasury.getTransactionHistory.
    rewrite of_Z_truthy by lia. unfold slice_end, of_Z. cbn [inject_Z Qnum Qden].
    rewrite Z.quot_1_r.
    replace (Z.of_nat n <? 0) with false by (symmetry; apply Z.ltb_ge; lia).
    destruct (decide (n <= length (Treasury.transactionHistory bank))%nat).
    + f_equal. lia.
    + rewrite !take_ge by lia. reflexivity.
  - intros n Hn. unfold Treasury.getTransactionHistory.
    rewrite of_Z_truthy by lia. unfold slice_end, of_Z. cbn [inject_Z Qnum Qden].
    rewrite Z.quot_1_r.
    replace (- Z.of_nat n <? 0) with true by (symmetry; apply Z.ltb_lt; lia).
    f_equal. lia.
Qed.

(** * The approval routes *)

Lemma resolveRoute_cases (s : Status) (failure done : string)
    (sub id : jsstring) (w : World) :
  resolveRoute (resolveRequest s) failure done sub id w
  = match getRequest id w with
    | None => (mkResponse 404 (ErrorBody (lit "Approval request not found")), w)
    | Some r =>
        if bool_decide (userId r ≠ sub) then
          (mkResponse 403 (ErrorBody (lit "Access denied")), w)
        else if bool_decide (status r ≠ pending) then
          (mkResponse 400 (ErrorBody (lit failure)), w)
        else
          (mkResponse 200
             (MessageBody (lit done)
                (Some (set_respondedAt (clock w) (set_status s r)))),
           store_set id (set_respondedAt (clock w) (set_status s r)) w)
    end.
Proof.
  unfold resolveRoute, getRequest.
  destruct (pendingRequests w !! id) as [r|] eqn:Hget; [|reflexivity].
  case_bool_decide; [reflexivity|].
  unfold resolveRequest. rewrite Hget.
  case_bool_decide; [reflexivity|].
  cbn [negb]. unfold getRequest. cbn [store_set pendingRequests].
  rewrite lookup_insert_eq. reflexivity.
Qed.

(** X24. The routes guard ownership: whoever the caller [sub] is and whatever
    id is named, approving, denying, reading or listing leaves every
    request of another user exactly as it was; naming another user's
    request answers 403 and shows nothing of it. *)
Theorem routes_guard_ownership (sub id : jsstring) (w : World) :
  (forall id' r',
      getRequest id' w = Some r' -> userId r' <> sub ->
      getRequest id' (approveRoute sub id w).2 = Some r'
      /\ getRequest id' (denyRoute sub id w).2 = Some r'
      /\ getRequest id' (requestRoute sub id w).2 = Some r'
      /\ getRequest id' (pendingRoute sub w).2 = Some r')
  /\ (forall r,
        getRequest id w = Some r -> userId r <> sub ->
        approveRoute sub id w
        = (mkResponse 403 (ErrorBody (lit "Access denied")), w)
        /\ denyRoute sub id w
           = (mkResponse 403 (ErrorBody (lit "Access denied")), w)
        /\ requestRoute sub id w
           = (mkResponse 403 (ErrorBody (lit "Access denied")), w)).
Proof.
  assert (Hres : forall s failure done id' r',
             getRequest id' w = Some r' -> userId r' <> sub ->
             getRequest id'
               (resolveRoute (resolveRequest s) failure done sub id w).2
             = Some r').
  { intros s failure done id' r' Hget' Hother. rewrite resolveRoute_cases.
    destruct (getRequest id w) as [r|] eqn:Hget; [|exact Hget'].
    case_bool_decide; [exact Hget'|].
    case_bool_decide; [exact Hget'|].
    cbn [snd]. unfold getRequest in *. cbn [store_set pendingRequests].
    rewrite lookup_insert_ne; [exact Hget'|].
    intros ->. rewrite Hget in Hget'. injection Hget' as <-. tauto. }
  split.
  - intros id' r' Hget' Hother.
    split; [apply Hres; assumption|]. split; [apply Hres; assumption|]. split.
    + unfold requestRoute. destruct (getRequest id w); [|exact Hget'].
      case_bool_decide; exact Hget'.
    + unfold pendingRoute, getPendingRequestsForUser, getRequest in *.
      cbn [snd pendingRequests]. rewrite lookup_fmap, Hget'. simpl.
      rewrite expire_if_due_keeps by auto. reflexivity.
  - intros r Hget Hother. unfold approveRoute, denyRoute, approveRequest, denyRequest.
    rewrite !resolveRoute_cases. unfold requestRoute. rewrite Hget.
    rewrite !bool_decide_eq_true_2 by exact Hother. auto.
Qed.

(** X25. The answer of the approve and deny routes tells what happened: 404 for
    an id the map does not hold, 403 for another user's request, 400 for
    the caller's own request that is no longer [pending]; in these cases
    nothing changes.  200 is answered exactly for the caller's own pending
    request, which is then stored and returned as [approved] (or
    [denied]) with the time of the call. *)
Theorem resolve_route_answers (sub id : jsstring) (w : World) :
  (getRequest id w = None ->
   (approveRoute sub id w).1.(statusCode) = 404
   /\ (denyRoute sub id w).1.(statusCode) = 404
   /\ (approveRoute sub id w).2 = w /\ (denyRoute sub id w).2 = w)
  /\ (forall r,
        getRequest id w = Some r ->
        ((approveRoute sub id w).1.(statusCode) = 200
         <-> userId r = sub /\ status r = pending)
        /\ ((denyRoute sub id w).1.(statusCode) = 200
            <-> userId r = sub /\ status r = pending)
        /\ ((approveRoute sub id w).1.(statusCode) <> 200 ->
            (approveRoute sub id w).2 = w)
        /\ ((denyRoute sub id w).1.(statusCode) <> 200 ->
            (denyRoute sub id w).2 = w)
        /\ (userId r = sub -> status r <> pending ->
            (approveRoute sub id w).1.(statusCode) = 400
            /\ (denyRoute sub id w).1.(statusCode) = 400)
        /\ (userId r = sub -> status r = pending ->
            approveRoute sub id w
            = (mkResponse 200
                 (MessageBody (lit "Request approved")
                    (Some (set_respondedAt (clock w) (set_status approved r)))),
               store_set id (set_respondedAt (clock w) (set_status approved r)) w)
            /\ denyRoute sub id w
               = (mkResponse 200
                    (MessageBody (lit "Request denied")
                       (Some (set_respondedAt (clock w) (set_status denied r)))),
                  store_set id (set_respondedAt (clock w) (set_status denied r)) w))).
Proof.
  unfold approveRoute, denyRoute, approveRequest, denyRequest.
  rewrite !resolveRoute_cases.
  split.
  - intros ->. auto.
  - intros r ->.
    destruct (decide (userId r = sub)) as [Hu | Hu];
      [rewrite !bool_decide_eq_false_2 by auto
      |rewrite !bool_decide_eq_true_2 by exact Hu].
    + destruct (decide (status r = pending)) as [Hs | Hs];
        [rewrite !bool_decide_eq_false_2 by auto
        |rewrite !bool_decide_eq_true_2 by exact Hs];
        cbn [fst snd statusCode];
        repeat split; try tauto; try discriminate; try reflexivity;
        intros; try contradiction; try (exfalso; lia); auto.
    + cbn [fst snd statusCode].
      repeat split; try tauto; try discriminate; try reflexivity;
        intros; try contradiction; try (exfalso; lia); auto.
Qed.

(** * Instances *)

Lemma poll_terminal_result_stored_witness :
  pendingRequests granted_world !! lit "req-1" = Some (demo_initiated granting).1
  /\ terminal (pollCIBAResult granting (lit "req-1") granted_world).1
  /\ exists r',
      getRequest (lit "req-1")
        (pollCIBAResult granting (lit "req-1") granted_world).2 = Some r'
      /\ status r' = (pollCIBAResult granting (lit "req-1") granted_world).1
      /\ same_request (demo_initiated granting).1 r'.
Proof.
  assert (H1 : pendingRequests granted_world !! lit "req-1"
               = Some (demo_initiated granting).1) by reflexivity.
  assert (H2 : terminal (pollCIBAResult granting (lit "req-1") granted_world).1)
    by (left; reflexivity).
  split; [exact H1|]. split; [exact H2|].
  exact (poll_terminal_result_stored granting (lit "req-1") granted_world
           (demo_initiated granting).1 H1 H2).
Defined.

Lemma poll_inconclusive_witness :
  pendingRequests flaky_world !! lit "req-1" = Some (demo_initiated flaky).1
  /\ clock flaky_world <= expiresAt (demo_initiated flaky).1
  /\ inconclusive (oauthToken flaky flaky_world (lit "req-1")) = true
  /\ pendingRequests (pollCIBAResult flaky (lit "req-1") flaky_world).2
     = pendingRequests flaky_world.
Proof.
  assert (H1 : pendingRequests flaky_world !! lit "req-1"
               = Some (demo_initiated flaky).1) by reflexivity.
  assert (H2 : clock flaky_world <= expiresAt (demo_initiated flaky).1)
    by (vm_compute; discriminate).
  split; [exact H1|]. split; [exact H2|]. split; [reflexivity|].
  exact (proj1 (proj2 (poll_inconclusive flaky (lit "req-1") flaky_world
                         (demo_initiated flaky).1 H1 H2 eq_refl eq_refl))).
Defined.

Lemma other_requests_untouched_witness :
  simulated_id <> lit "req-1"
  /\ getRequest simulated_id (pollCIBAResult granting (lit "req-1") granted_world).2
     = getRequest simulated_id granted_world.
Proof.
  assert (H : simulated_id <> lit "req-1") by (vm_compute; discriminate).
  split; [exact H|].
  exact (proj1 (other_requests_untouched granting (lit "req-1") simulated_id
                  granted_world H)).
Defined.

Lemma request_carried_on_witness :
  is_initiate (Approve simulated_id) = false
  /\ run offline (Approve simulated_id) simulated_world
     = Some (approveRequest simulated_id simulated_world).2
  /\ exists r',
      getRequest simulated_id (approveRequest simulated_id simulated_world).2
      = Some r'
      /\ same_request (demo_initiated offline).1 r'
      /\ (status (demo_initiated offline).1 <> pending -> status r' <> pending).
Proof.
  split; [reflexivity|]. split; [reflexivity|].
  exact (proj2 (request_carried_on offline (Approve simulated_id)
                  simulated_world
                  (approveRequest simulated_id simulated_world).2
                  simulated_id eq_refl eq_refl)
           (demo_initiated offline).1 eq_refl).
Defined.

Lemma requests_never_removed_witness :
  run offline (Initiate (lit "auth0|u2") (lit "u2@demo.local")
                 (lit "Transfer") demo_details) simulated_world
  = Some (initiateCIBARequest offline (lit "auth0|u2") (lit "u2@demo.local")
            (lit "Transfer") demo_details simulated_world).2
  /\ is_Some (getRequest simulated_id simulated_world)
  /\ is_Some
       (getRequest simulated_id
          (initiateCIBARequest offline (lit "auth0|u2") (lit "u2@demo.local")
             (lit "Transfer") demo_details simulated_world).2).
Proof.
  assert (H : is_Some (getRequest simulated_id simulated_world))
    by (exists (demo_initiated offline).1; reflexivity).
  split; [reflexivity|]. split; [exact H|].
  exact (requests_never_removed offline
           (Initiate (lit "auth0|u2") (lit "u2@demo.local") (lit "Transfer")
              demo_details)
           simulated_world _ simulated_id eq_refl H).
Defined.

Lemma simulated_world_reachable : reachable offline simulated_world.
Proof.
  eapply reachable_step
    with (op := Initiate (lit "auth0|u1") (lit "u1@demo.local")
                  (lit "Transfer $75,000") demo_details).
  - apply (reachable_start offline 1700000000000).
  - reflexivity.
Defined.

Lemma stored_under_own_id_witness :
  reachable offline simulated_world
  /\ getRequest simulated_id simulated_world = Some (demo_initiated offline).1
  /\ authReqId (demo_initiated offline).1 = simulated_id
  /\ status (demo_initiated offline).1 <> timeout.
Proof.
  split; [exact simulated_world_reachable|]. split; [reflexivity|].
  exact (stored_under_own_id offline simulated_world simulated_id
           (demo_initiated offline).1 simulated_world_reachable eq_refl).
Defined.

Lemma first_resolution_wins_witness :
  pendingRequests simulated_world !! simulated_id = Some (demo_initiated offline).1
  /\ status (demo_initiated offline).1 = pending
  /\ (approveRequest simulated_id simulated_world).1 = true
  /\ denyRequest simulated_id (approveRequest simulated_id simulated_world).2
     = (false, (approveRequest simulated_id simulated_world).2).
Proof.
  split; [reflexivity|]. split; [reflexivity|].
  pose proof (first_resolution_wins simulated_id simulated_world
                (demo_initiated offline).1 eq_refl eq_refl) as H.
  cbv zeta in H. destruct H as (Ha & _ & _ & Hd & _).
  split; [exact Ha | exact Hd].
Defined.

Lemma simulated_stays_local_witness :
  startsWith simulated_id (lit "SIMULATED-") = true
  /\ network (pollCIBAResult granting simulated_id simulated_world).2
     = network simulated_world.
Proof.
  split; [reflexivity|].
  exact (proj1 (simulated_stays_local granting simulated_id simulated_world
                  eq_refl)).
Defined.

Lemma wait_after_manual_resolution_witness :
  pendingRequests simulated_world !! simulated_id = Some (demo_initiated offline).1
  /\ status (demo_initiated offline).1 = pending
  /\ clock simulated_world <= expiresAt (demo_initiated offline).1
  /\ startsWith simulated_id (lit "SIMULATED-") = true
  /\ 0 < defaultMaxWaitMs
  /\ waitForApproval offline 1 simulated_id defaultMaxWaitMs
       (approveRequest simulated_id simulated_world).2
     = Some (approved, [approved], (approveRequest simulated_id simulated_world).2).
Proof.
  assert (H3 : clock simulated_world <= expiresAt (demo_initiated offline).1)
    by (vm_compute; discriminate).
  assert (H5 : 0 < defaultMaxWaitMs) by reflexivity.
  split; [reflexivity|]. split; [reflexivity|]. split; [exact H3|].
  split; [reflexivity|]. split; [exact H5|].
  exact (proj1 (wait_after_manual_resolution offline 0 simulated_id
                  defaultMaxWaitMs simulated_world (demo_initiated offline).1
                  eq_refl eq_refl H3 eq_refl H5)).
Defined.

Lemma wait_expired_at_once_witness :
  0 < defaultMaxWaitMs
  /\ pendingRequests demo_start !! lit "req-404" = None
  /\ exists w',
      waitForApproval offline 1 (lit "req-404") defaultMaxWaitMs demo_start
      = Some (expired, [expired], w')
      /\ clock w' = clock demo_start
      /\ network w' = network demo_start.
Proof.
  assert (H : 0 < defaultMaxWaitMs) by reflexivity.
  split; [exact H|]. split; [reflexivity|].
  exact (wait_expired_at_once offline 0 (lit "req-404") defaultMaxWaitMs
           demo_start H (or_introl eq_refl)).
Defined.

Lemma wait_decision_is_stored_witness :
  waitForApproval granting 1 (lit "req-1") defaultMaxWaitMs granted_world
  = Some (approved, [approved],
          (pollCIBAResult granting (lit "req-1") granted_world).2)
  /\ exists r',
      getRequest (lit "req-1")
        (pollCIBAResult granting (lit "req-1") granted_world).2 = Some r'
      /\ status r' = approved.
Proof.
  assert (H : waitForApproval granting 1 (lit "req-1") defaultMaxWaitMs
                granted_world
              = Some (approved, [approved],
                      (pollCIBAResult granting (lit "req-1") granted_world).2))
    by (vm_compute; reflexivity).
  split; [exact H|].
  exact (proj1 (wait_decision_is_stored granting 1 (lit "req-1")
                  defaultMaxWaitMs granted_world approved [approved] _ H)
           (or_introl eq_refl)).
Defined.

Lemma simulated_wait_poll_count_witness :
  startsWith simulated_id (lit "SIMULATED-") = true
  /\ pendingRequests simulated_world !! simulated_id ≫= interval = None
  /\ waitForApproval offline 3 simulated_id 12000 simulated_world
     = Some (timeout, [pending; pending; pending], elapse 15000 simulated_world)
  /\ 5000 * (Z.of_nat (length [pending; pending; pending]) - 1) < 12000.
Proof.
  split; [reflexivity|]. split; [reflexivity|]. split; [exact wait_times_out|].
  exact (proj2 (simulated_wait_poll_count offline 3 simulated_id 12000
                  simulated_world timeout [pending; pending; pending]
                  (elapse 15000 simulated_world) eq_refl eq_refl wait_times_out)
           eq_refl).
Defined.

Lemma override_terminal_witness :
  pendingRequests (approveRequest simulated_id simulated_world).2 !! simulated_id
  = Some (set_respondedAt 1700000000000
            (set_status approved (demo_initiated offline).1))
  /\ status (set_respondedAt 1700000000000
               (set_status approved (demo_initiated offline).1)) <> pending
  /\ approveRequest simulated_id (approveRequest simulated_id simulated_world).2
     = (false, (approveRequest simulated_id simulated_world).2)
  /\ denyRequest simulated_id (approveRequest simulated_id simulated_world).2
     = (false, (approveRequest simulated_id simulated_world).2).
Proof.
  assert (H : status (set_respondedAt 1700000000000
                        (set_status approved (demo_initiated offline).1))
              <> pending) by discriminate.
  split; [reflexivity|]. split; [exact H|].
  exact (override_terminal simulated_id
           (approveRequest simulated_id simulated_world).2 _ eq_refl H).
Defined.

Lemma transfer_succeeds_iff_witness :
  Treasury.getBankAccount (lit "ACC001") Treasury.demo_bank
  = Some (Treasury.mkAccount (lit "ACC001") (lit "Main Checking")
            (lit "****1234") (of_Z 5250000) Treasury.checking)
  /\ (Treasury.success
        (Treasury.simulateTransfer fixed_day (lit "ACC001") (lit "ACC999")
           (of_Z 75000) (lit "Transfer to ACC999") 1700000000000
           Treasury.demo_bank).1 = true
      <-> (0 < inject_Z 75000 /\ inject_Z 75000 <= inject_Z 5250000)%Q).
Proof.
  split; [reflexivity|].
  exact (proj1 (transfer_succeeds_iff fixed_day (lit "ACC001") (lit "ACC999")
                  (of_Z 75000) (lit "Transfer to ACC999") 1700000000000
                  Treasury.demo_bank _ (inject_Z 5250000) eq_refl eq_refl)
           (inject_Z 75000) eq_refl).
Defined.

Lemma transfers_keep_solvent_witness :
  Treasury.solvent Treasury.demo_bank
  /\ of_Z 75000 <> NaN
  /\ Treasury.solvent
       (Treasury.simulateTransfer fixed_day (lit "ACC001") (lit "ACC999")
          (of_Z 75000) (lit "Transfer to ACC999") 1700000000000
          Treasury.demo_bank).2.
Proof.
  assert (H1 : Treasury.solvent Treasury.demo_bank).
  { repeat constructor; eexists; (split; [reflexivity | vm_compute; discriminate]). }
  assert (H2 : of_Z 75000 <> NaN) by discriminate.
  split; [exact H1|]. split; [exact H2|].
  exact (transfers_keep_solvent fixed_day (lit "ACC001") (lit "ACC999")
           (of_Z 75000) (lit "Transfer to ACC999") 1700000000000
           Treasury.demo_bank H1 H2).
Defined.

Lemma successful_transfer_effect_witness :
  let run :=
    Treasury.simulateTransfer fixed_day (lit "ACC001") (lit "ACC999")
      (of_Z 75000) (lit "Transfer to ACC999") 1700000000000
      Treasury.demo_bank in
  Treasury.success run.1 = true
  /\ Treasury.balance <$> Treasury.getBankAccount (lit "ACC001") Treasury.demo_bank
     = Some (of_Z 5250000)
  /\ Treasury.balance <$> Treasury.getBankAccount (lit "ACC001") run.2
     = Some (of_Z 5175000).
Proof.
  intros run. split; [reflexivity|]. split; [reflexivity|].
  destruct (successful_transfer_effect fixed_day (lit "ACC001") (lit "ACC999")
              (of_Z 75000) (lit "Transfer to ACC999") 1700000000000
              Treasury.demo_bank eq_refl)
    as (acc & remaining & Hacc & Hnew & Hexact & _).
  injection Hacc as <-. fold run in Hnew. rewrite Hnew.
  destruct (Hexact 5250000 75000 eq_refl eq_refl ltac:(lia)) as [_ ->].
  reflexivity.
Defined.

(** * Further properties: reads, network traffic, id collisions *)

(** X26. The read routes: [GET /:authReqId] never changes the world and
    answers 200 exactly for a stored request of the caller, whose record
    is the body; [GET /pending] answers 200 with requests that all belong
    to the caller and are [pending], and with their number as [count]. *)
Theorem read_routes_answers (sub id : jsstring) (w : World) :
  (requestRoute sub id w).2 = w
  /\ ((requestRoute sub id w).1.(statusCode) = 200
      <-> exists r, getRequest id w = Some r /\ userId r = sub)
  /\ (forall r,
        getRequest id w = Some r -> userId r = sub ->
        (requestRoute sub id w).1 = mkResponse 200 (RequestBody r))
  /\ exists requests,
      (pendingRoute sub w).1
      = mkResponse 200 (RequestsBody requests (length requests))
      /\ Forall (fun r => userId r = sub /\ status r = pending) requests.
Proof.
  unfold requestRoute, pendingRoute.
  destruct (getRequest id w) as [r|] eqn:Hget.
  - case_bool_decide as Hu; cbn [fst snd statusCode].
    + split; [reflexivity|]. split; [|split].
      * split; [discriminate|]. intros (r0 & [= <-] & Hr0). contradiction.
      * intros r0 [= <-] Hr0. contradiction.
      * eexists. split; [reflexivity|].
        apply Forall_forall. intros r0 Hr0.
        apply list_elem_of_filter in Hr0 as [(Hu0 & Hs0 & _) _]. auto.
    + assert (Hown : userId r = sub)
        by (destruct (decide (userId r = sub)); [assumption | contradiction]).
      split; [reflexivity|]. split; [|split].
      * split; [eauto | reflexivity].
      * intros r0 [= <-] _. reflexivity.
      * eexists. split; [reflexivity|].
        apply Forall_forall. intros r0 Hr0.
        apply list_elem_of_filter in Hr0 as [(Hu0 & Hs0 & _) _]. auto.
  - cbn [fst snd statusCode]. split; [reflexivity|]. split; [|split].
    + split; [discriminate|]. intros (r0 & Hr0 & _). discriminate.
    + discriminate.
    + eexists. split; [reflexivity|].
      apply Forall_forall. intros r0 Hr0.
      apply list_elem_of_filter in Hr0 as [(Hu0 & Hs0 & _) _]. auto.
Qed.

Section Traffic.

Variable env : Environment.

Lemma poll_traffic (id : jsstring) (w : World) :
  network (pollCIBAResult env id w).2 = network w
  \/ network (pollCIBAResult env id w).2 = oauth_token id :: network w.
Proof.
  destruct (poll_cases env id w) as [[_ Hrun] | (r & _ & Hcase)];
    [rewrite Hrun; auto|].
  destruct Hcase as [(_ & Hrun) | [(_ & _ & Hrun) | (_ & _ & Hreal)]];
    [rewrite Hrun; auto | rewrite Hrun; auto |].
  destruct Hreal as [(_ & Hrun) | [(r' & Hrun & _) | (_ & Hrun)]];
    rewrite Hrun; auto.
Qed.

Lemma waitLoop_traffic (id : jsstring) (fuel : nat) :
  forall (startTime maxWaitMs pollIntervalMs : Z) (w : World) tag polls w',
    waitLoop env fuel id startTime maxWaitMs pollIntervalMs w
    = Some (tag, polls, w') ->
    exists calls,
      network w' = calls ++ network w
      /\ Forall (fun call => call = oauth_token id) calls
      /\ (length calls <= length polls)%nat.
Proof.
  induction fuel as [|fuel IH]; intros start maxWaitMs p w tag polls w';
    rewrite waitLoop_unfold;
    destruct (clock w - start <? maxWaitMs); try discriminate;
    try (intros [= <- <- <-]; exists []; repeat split; [constructor | reflexivity]).
  assert (Hone : exists calls,
             network (pollCIBAResult env id w).2 = calls ++ network w
             /\ Forall (fun call => call = oauth_token id) calls
             /\ (length calls <= 1)%nat).
  { destruct (poll_traffic id w) as [H | H]; rewrite H.
    - exists []. repeat split; [constructor | simpl; lia].
    - exists [oauth_token id]. repeat split; [repeat constructor | simpl; lia]. }
  destruct (pollCIBAResult env id w) as [result w1]. cbn [snd] in Hone.
  repeat (case_bool_decide; [intros [= <- <- <-]; exact Hone|]).
  cbv zeta. set (p' := adopt_interval _ _).
  destruct (waitLoop env fuel id start maxWaitMs p' (setTimeout env p' w1))
    as [[[tag0 polls0] w0]|] eqn:Hrec; [|discriminate].
  intros [= <- <- <-].
  destruct (IH _ _ _ _ _ _ _ Hrec) as (later & Hnet & Hall & Hlen).
  destruct Hone as (first & Hnet1 & Hall1 & Hlen1).
  exists (later ++ first). cbn [setTimeout network] in Hnet.
  rewrite Hnet, Hnet1, app_assoc. split; [reflexivity|].
  split; [apply Forall_app; auto|].
  rewrite length_app. cbn [length]. lia.
Qed.

(** X27. Whatever a wait does on the network, it only polls the token
    endpoint for the id it waits on, at most once per poll: the calls it
    logs are all [oauth_token id] and no more than the polls it made. *)
Theorem wait_only_polls_its_id (fuel : nat) (id : jsstring) (maxWaitMs : Z)
    (w : World) (tag : Status) (polls : list Status) (w' : World) :
  waitForApproval env fuel id maxWaitMs w = Some (tag, polls, w') ->
  exists calls,
    network w' = calls ++ network w
    /\ Forall (fun call => call = oauth_token id) calls
    /\ (length calls <= length polls)%nat.
Proof. unfold waitForApproval. apply waitLoop_traffic. Qed.

Lemma initiate_rejected (u e o : jsstring) (d : Details) (w : World)
    (err : option jsstring) :
  bcAuthorize env w u (createBindingMessage o d) = Rejected err ->
  let w1 := sent env (bc_authorize u (createBindingMessage o d)) w in
  let id := lit "SIMULATED-" ++ Z_to_string (clock w1) in
  let r := mkRequest id u (Some e) o d pending (clock w1) None
             (clock w1 + 300000) (Some (createBindingMessage o d)) None in
  initiateCIBARequest env u e o d w = (r, store_set id r w1).
Proof. intros H. unfold initiateCIBARequest. rewrite H. reflexivity. Qed.

(** X28. Simulated ids are unique per millisecond only: when the
    authority is unreachable for two initiations and the clock reads the
    same at both, the second request gets the id of the first and replaces
    it in the map. *)
Theorem simulated_ids_collide (uid1 email1 op1 uid2 email2 op2 : jsstring)
    (d1 d2 : Details) (w : World) (e1 e2 : option jsstring) :
  let first := initiateCIBARequest env uid1 email1 op1 d1 w in
  let second := initiateCIBARequest env uid2 email2 op2 d2 first.2 in
  bcAuthorize env w uid1 (createBindingMessage op1 d1) = Rejected e1 ->
  bcAuthorize env first.2 uid2 (createBindingMessage op2 d2) = Rejected e2 ->
  latency env first.2 = 0%N ->
  authReqId second.1 = authReqId first.1
  /\ getRequest (authReqId first.1) first.2 = Some first.1
  /\ getRequest (authReqId first.1) second.2 = Some second.1
  /\ userId second.1 = uid2.
Proof.
  intros first second H1 H2 Hlat. subst second.
  rewrite (initiate_rejected uid2 email2 op2 d2 first.2 e2 H2).
  cbv zeta. cbn [fst snd authReqId userId].
  assert (Hclock : clock (sent env (bc_authorize uid2 (createBindingMessage op2 d2))
                            first.2) = clock first.2).
  { cbn [sent clock]. rewrite Hlat. simpl. lia. }
  rewrite Hclock. clear Hclock H2 Hlat. subst first.
  rewrite (initiate_rejected uid1 email1 op1 d1 w e1 H1).
  cbv zeta. cbn [fst snd authReqId store_set clock].
  split; [reflexivity|]. unfold getRequest.
  cbn [store_set sent pendingRequests].
  rewrite !lookup_insert_eq. auto.
Qed.

End Traffic.

Lemma wait_only_polls_its_id_witness :
  waitForApproval granting 1 (lit "req-1") defaultMaxWaitMs granted_world
  = Some (approved, [approved],
          (pollCIBAResult granting (lit "req-1") granted_world).2)
  /\ exists calls,
      network (pollCIBAResult granting (lit "req-1") granted_world).2
      = calls ++ network granted_world
      /\ Forall (fun call => call = oauth_token (lit "req-1")) calls
      /\ (length calls <= length [approved])%nat.
Proof.
  assert (H : waitForApproval granting 1 (lit "req-1") defaultMaxWaitMs
                granted_world
              = Some (approved, [approved],
                      (pollCIBAResult granting (lit "req-1") granted_world).2))
    by (vm_compute; reflexivity).
  split; [exact H|].
  exact (wait_only_polls_its_id granting 1 (lit "req-1") defaultMaxWaitMs
           granted_world approved [approved] _ H).
Defined.

Lemma simulated_ids_collide_witness :
  let first := demo_initiated offline in
  let second :=
    initiateCIBARequest offline (lit "auth0|u2") (lit "u2@demo.local")
      (lit "Transfer") demo_details first.2 in
  bcAuthorize offline demo_start (lit "auth0|u1")
    (createBindingMessage (lit "Transfer $75,000") demo_details)
  = Rejected None
  /\ latency offline first.2 = 0%N
  /\ authReqId second.1 = authReqId first.1
  /\ getRequest (authReqId first.1) first.2 = Some first.1
  /\ getRequest (authReqId first.1) second.2 = Some second.1
  /\ userId second.1 = lit "auth0|u2".
Proof.
  intros first second.
  split; [reflexivity|]. split; [reflexivity|].
  exact (simulated_ids_collide offline
           (lit "auth0|u1") (lit "u1@demo.local") (lit "Transfer $75,000")
           (lit "auth0|u2") (lit "u2@demo.local") (lit "Transfer")
           demo_details demo_details demo_start None None
           eq_refl eq_refl eq_refl).
Defined.
